(** * Oxford Instruments IPS 120-10 magnet power supply driver

    A shallow embedding of [pymeasure/instruments/oxfordinstruments/ips120_10.py]
    and the properties its specification states about it.

    The driver is a facade over a device that lives behind a command channel.
    Every operation is a computation over a [World]: the state of the device,
    the time the driver has slept, the class-level [_FIELD_RANGE] list and the
    chronological log of what the driver did on the channel.  Python
    exceptions are values of [exn]; the [while True] loop of [wait_for_idle]
    runs on fuel, and a run that is out of fuel keeps the world it has
    reached.

    Python numbers are rationals: only their order and equality matter to the
    driver.  [time()] reads the wall clock, which belongs to the environment:
    it has advanced by what the driver has slept and by whatever time the
    channel has taken besides. *)

From Stdlib Require Import ZArith QArith Bool String List Lia Lqa.
Import ListNotations.

Local Open Scope string_scope.
Local Open Scope list_scope.
Local Open Scope Z_scope.

(** ** Exceptions *)

(** The exception classes the driver raises or lets through.  [MagnetError] and
    [SwitchHeaterStatusError] are declared in the driver as subclasses of
    [ValueError]; [TimeoutError] is a builtin subclass of [OSError]; [KeyError]
    is what a failed dictionary lookup raises. *)
Inductive exn : Type :=
| ValueError (msg : string)
| MagnetError (msg : string)
| SwitchHeaterStatusError (code : Z)
| TimeoutError (msg : string)
| OSError (msg : string)
| KeyError.

(** [isinstance(e, ValueError)], which is what [except ValueError] tests. *)
Definition is_ValueError (e : exn) : bool :=
  match e with
  | ValueError _ | MagnetError _ | SwitchHeaterStatusError _ => true
  | TimeoutError _ | OSError _ | KeyError => false
  end.

(** The [MagnetError]s and the [TimeoutError] the driver raises, under the
    names the specification gives them. *)
Definition FieldNotZero : exn :=
  MagnetError "IPS 120-10: field not at 0T; cannot disable the supply. ".
Definition NotAtRest_enable : exn :=
  MagnetError "IPS 120-10: magnet not at rest; cannot enable persistent mode".
Definition NotAtRest_disable : exn :=
  MagnetError "IPS 120-10: magnet not at rest; cannot disable persistent mode".
Definition TooManyErrors : exn :=
  MagnetError
    "IPS 120-10: Too many exceptions occurred during getting IPS status.".
Definition Timeout : exn :=
  TimeoutError "IPS 120-10: Magnet not idle within max wait time.".
Definition PersistentModeNotAllowed : exn :=
  MagnetError
    "IPS 120-10: magnet in persistent mode and control of persistent mode not allowed".

(** How a call ends: it returns, it raises, or it is still inside a loop when
    the fuel runs out. *)
Inductive result (A : Type) : Type :=
| Returned (a : A)
| Raised (e : exn)
| Running.
Arguments Returned {A} a.
Arguments Raised {A} e.
Arguments Running {A}.

(** ** The command channel *)

(** A set command with its argument, e.g. ["$H%d" % 1] or ["$J%f" % field].
    The argument is kept as a number; the text produced by the format is the
    transport's concern. *)
Inductive command : Type :=
| SetInt (fmt : string) (z : Z)
| SetFloat (fmt : string) (q : Q).

(** What the driver does to its environment, in the order it does it. *)
Inductive event : Type :=
| Asked (cmd : string)
| Wrote (c : command)
| Slept (d : Q)
| Cleared.

(** A device behind the channel, as the driver sees it through
    [Instrument.measurement] and [Instrument.control]: a query command whose
    reply is decoded by [int(v[k])] or by [float(v[1:])] either yields the
    decoded number or raises; a set command is transmitted; time passes while
    the driver sleeps.  [lag s] is the wall-clock time that has passed up to
    the state [s] beyond the durations the driver asked to sleep: the time
    the queries and commands have taken on the channel, and what a sleep
    overran. *)
Record Device : Type := {
  dstate : Type;
  ask_int : string -> nat -> dstate -> (exn + Z) * dstate;
  ask_float : string -> dstate -> (exn + Q) * dstate;
  send : command -> dstate -> dstate;
  elapse : Q -> dstate -> dstate;
  clear : dstate -> dstate;
  lag : dstate -> Q
}.

(** ** Python dictionaries used as value maps *)

Fixpoint dict_get (d : list (string * Z)) (k : string) : option Z :=
  match d with
  | [] => None
  | (k', v) :: d' => if String.eqb k' k then Some v else dict_get d' k
  end.

Fixpoint dict_inverse (d : list (string * Z)) (v : Z) : option string :=
  match d with
  | [] => None
  | (k, v') :: d' => if Z.eqb v' v then Some k else dict_inverse d' v
  end.

Definition control_mode_values : list (string * Z) :=
  [("LL", 0); ("RL", 1); ("LU", 2); ("RU", 3)].

Definition activity_values : list (string * Z) :=
  [("hold", 0); ("to setpoint", 1); ("to zero", 2); ("clamp", 4)].

Definition sweep_status_values : list (string * Z) :=
  [("at rest", 0); ("sweeping", 1); ("sweep limiting", 2);
   ("sweeping & sweep limiting", 3)].

(** Comparisons of Python numbers. *)
Definition Qgtb (a b : Q) : bool := negb (Qle_bool a b).

(** Class attributes. *)
Definition _MAX_CURRENT : Q := 120%Q.
Definition _SWITCH_HEATER_DELAY : Q := 20%Q.
Definition _FIELD_RANGE_initial : list Q := [(-16)%Q; 16%Q].

(** An instance: the only attribute [__init__] may set on [self]. *)
Record IPS120_10 : Type := {
  inst_SWITCH_HEATER_DELAY : option Q
}.

(** Attribute lookup [self._SWITCH_HEATER_DELAY]: the instance attribute when
    [__init__] set one, the class attribute otherwise. *)
Definition SWITCH_HEATER_DELAY (self : IPS120_10) : Q :=
  match inst_SWITCH_HEATER_DELAY self with
  | Some d => d
  | None => _SWITCH_HEATER_DELAY
  end.

(** The [field_range] argument of [__init__] when it is not [None]: a number
    or a list or tuple of numbers. *)
Inductive field_range_arg : Type :=
| RangeNumber (q : Q)
| RangeSeq (l : list Q).

(** What the driver is linked against: the device on the other side of the
    channel, and the validators imported from
    [pymeasure.instruments.validators].  The bodies of the validators are not
    part of this file's source, so the driver is stated for any validator:
    given the value and the [values] argument of the property, it returns the
    value to transmit or raises. *)
Record Env : Type := {
  chan : Device;
  truncated_range : Q -> list Q -> exn + Q;
  strict_discrete_set : string -> list (string * Z) -> exn + string
}.

Section Driver.

Context {E : Env}.

Let D : Device := chan E.

(** ** Worlds and computations *)

(** [FIELD_RANGE] is the list object bound to the class attribute
    [_FIELD_RANGE]: there is one per process, and the [field_setpoint] property
    holds a reference to that same object. *)
Record World : Type := {
  FIELD_RANGE : list Q;
  dev : dstate D;
  slept : Q;
  trace : list event
}.

Definition M (A : Type) : Type := World -> result A * World.

Definition ret {A} (a : A) : M A := fun w => (Returned a, w).

Definition raise {A} (e : exn) : M A := fun w => (Raised e, w).

Definition bind {A B} (m : M A) (k : A -> M B) : M B :=
  fun w =>
    match m w with
    | (Returned a, w') => k a w'
    | (Raised e, w') => (Raised e, w')
    | (Running, w') => (Running, w')
    end.

Notation "x <- m ;; k" := (bind m (fun x => k))
  (at level 61, m at next level, right associativity).
Notation "m ;;; k" := (bind m (fun _ => k))
  (at level 61, right associativity).

(** [try: m  except ValueError as e: ...]: a raised [ValueError] (or subclass)
    is handed to the caller as a value, anything else propagates. *)
Definition try_ValueError {A} (m : M A) : M (exn + A) :=
  fun w =>
    match m w with
    | (Returned a, w') => (Returned (inr a), w')
    | (Raised e, w') =>
        if is_ValueError e then (Returned (inl e), w') else (Raised e, w')
    | (Running, w') => (Running, w')
    end.

Definition lift {A} (r : exn + A) : M A :=
  match r with
  | inl e => raise e
  | inr a => ret a
  end.

(** *** Channel and environment primitives *)

Definition log (e : event) (d : dstate D) (w : World) : World :=
  {| FIELD_RANGE := FIELD_RANGE w; dev := d; slept := slept w;
     trace := trace w ++ [e] |}.

Definition query_int (cmd : string) (k : nat) : M Z :=
  fun w =>
    let (r, d) := ask_int D cmd k (dev w) in
    lift r (log (Asked cmd) d w).

Definition query_float (cmd : string) : M Q :=
  fun w =>
    let (r, d) := ask_float D cmd (dev w) in
    lift r (log (Asked cmd) d w).

Definition do_write (c : command) (w : World) : World :=
  log (Wrote c) (send D c (dev w)) w.

Definition write (c : command) : M unit :=
  fun w => (Returned tt, do_write c w).

(** [sleep(d)], for a duration that is not negative: the driver has slept
    [d] more and the device sees the time pass. *)
Definition do_sleep (d : Q) (w : World) : World :=
  {| FIELD_RANGE := FIELD_RANGE w; dev := elapse D d (dev w);
     slept := (slept w + d)%Q; trace := trace w ++ [Slept d] |}.

Definition sleep (d : Q) : M unit :=
  fun w => (Returned tt, do_sleep d w).

(** Reading the process state without changing it. *)
Definition peek {A} (f : World -> A) : M A := fun w => (Returned (f w), w).

(** The wall clock: the time slept and the time the channel has taken. *)
Definition clock (w : World) : Q := (slept w + lag D (dev w))%Q.

(** [time()]. *)
Definition time : M Q := peek clock.

(** ** Properties declared with [Instrument.measurement] and
    [Instrument.control] *)

(** Getter of a property with [map_values=True] and a dictionary of values:
    the decoded code is mapped back to its key. *)
Definition mapped_get (cmd : string) (k : nat) (values : list (string * Z))
  : M string :=
  v <- query_int cmd k ;;
  match dict_inverse values v with
  | Some key => ret key
  | None => raise KeyError
  end.

(** Setter of such a property, after validation: [values[value]] is sent. *)
Definition mapped_set (fmt : string) (values : list (string * Z))
  (value : string) : M unit :=
  match dict_get values value with
  | Some code => write (SetInt fmt code)
  | None => raise KeyError
  end.

Definition control_mode : M string := mapped_get "X" 6 control_mode_values.

Definition set_control_mode (value : string) : M unit :=
  v <- lift (strict_discrete_set E value control_mode_values) ;;
  mapped_set "$C%d" control_mode_values v.

Definition current_measured : M Q := query_float "R1".
Definition demand_current : M Q := query_float "R0".
Definition demand_field : M Q := query_float "R7".
Definition persistent_field : M Q := query_float "R18".
Definition field_polarity : M Z := query_int "X" 13.
Definition polarity_contactor : M Z := query_int "X" 14.

Definition switch_heater_status : M Z := query_int "X" 8.

Definition set_switch_heater_status (value : Z) : M unit :=
  write (SetInt "$H%d" value).

Definition current_setpoint : M Q := query_float "R0".

Definition set_current_setpoint (value : Q) : M unit :=
  v <- lift (truncated_range E value [0%Q; _MAX_CURRENT]) ;;
  write (SetFloat "$I%f" v).

Definition field_setpoint : M Q := query_float "R8".

(** [values=_FIELD_RANGE]: the validator is handed the class-level list as it
    is at the time of the call. *)
Definition set_field_setpoint (value : Q) : M unit :=
  values <- peek FIELD_RANGE ;;
  v <- lift (truncated_range E value values) ;;
  write (SetFloat "$J%f" v).

Definition sweep_rate : M Q := query_float "R9".

Definition set_sweep_rate (value : Q) : M unit :=
  write (SetFloat "$T%f" value).

Definition activity : M string := mapped_get "X" 4 activity_values.

Definition set_activity (value : string) : M unit :=
  mapped_set "$A%d" activity_values value.

Definition sweep_status : M string := mapped_get "X" 11 sweep_status_values.

(** ** Methods *)

(** [__init__]: the instance attribute for the delay, the in-place slice
    assignment to the class-level list, the buffer clear. *)
Definition set_FIELD_RANGE (l : list Q) (w : World) : World :=
  {| FIELD_RANGE := l; dev := dev w; slept := slept w; trace := trace w |}.

Definition do_clear (w : World) : World :=
  log Cleared (clear D (dev w)) w.

Definition __init__ (clear_buffer : bool) (switch_heater_delay : option Q)
  (field_range : option field_range_arg) : M IPS120_10 :=
  fun w =>
    let w1 :=
      match field_range with
      | None => w
      | Some (RangeNumber q) => set_FIELD_RANGE [(- q)%Q; q] w
      | Some (RangeSeq l) => set_FIELD_RANGE l w
      end in
    let w2 := if clear_buffer then do_clear w1 else w1 in
    (Returned {| inst_SWITCH_HEATER_DELAY := switch_heater_delay |}, w2).

(** The [field] property: the persistent field when the switch heater is off,
    the demand field otherwise (also for an unexpected heater code). *)
Definition field : M Q :=
  sw_heater <- switch_heater_status ;;
  if (sw_heater =? 0) || (sw_heater =? 2) then persistent_field
  else if sw_heater =? 1 then demand_field
  else demand_field.

Definition enable_control : M unit :=
  set_control_mode "RU" ;;;
  a <- activity ;;
  (if String.eqb a "clamp" then set_activity "hold" else ret tt) ;;;
  f <- field ;;
  if Qeq_bool f 0 then set_switch_heater_status 1 else ret tt.

Definition disable_control : M unit :=
  f <- field ;;
  if negb (Qeq_bool f 0) then
    raise FieldNotZero
  else
    set_switch_heater_status 0 ;;;
    set_activity "clamp" ;;;
    set_control_mode "LU".

(** The body of the [while True] loop of [wait_for_idle], with the loop's
    variables as arguments. *)
Fixpoint wait_loop (fuel : nat) (delay : Q) (max_errors : option Z)
  (max_wait_time : option Q) (should_stop : World -> bool)
  (error_ct : Z) (start_time : Q) (status : option string) : M unit :=
  match fuel with
  | O => fun w => (Running, w)
  | S fuel' =>
      sleep delay ;;;
      r <- try_ValueError sweep_status ;;
      let status' := match r with inr s => Some s | inl _ => status end in
      let error_ct' := match r with inr _ => error_ct | inl _ => error_ct + 1 end in
      if match status' with Some s => String.eqb s "at rest" | None => false end
      then ret tt
      else
        stop <- peek should_stop ;;
        if stop then ret tt
        else
          if match max_errors with Some m => error_ct' >? m | None => false end
          then raise TooManyErrors
          else
            t <- time ;;
            if match max_wait_time with
               | Some mw => Qgtb (t - start_time) mw
               | None => false
               end
            then raise Timeout
            else wait_loop fuel' delay max_errors max_wait_time should_stop
                   error_ct' start_time status'
  end.

Definition wait_for_idle (fuel : nat) (delay : Q) (max_errors : option Z)
  (max_wait_time : option Q) (should_stop : World -> bool) : M unit :=
  start_time <- time ;;
  wait_loop fuel delay max_errors max_wait_time should_stop 0 start_time None.

(** [self.wait_for_idle()] with the default arguments. *)
Definition wait_for_idle_default (fuel : nat) : M unit :=
  wait_for_idle fuel 1%Q (Some 10) None (fun _ => false).

Definition enable_persistent_mode (self : IPS120_10) (fuel : nat) : M unit :=
  s <- sweep_status ;;
  if negb (String.eqb s "at rest") then
    raise NotAtRest_enable
  else
    switch_status <- switch_heater_status ;;
    if (switch_status =? 0) || (switch_status =? 2) then ret tt
    else if switch_status =? 1 then
      set_activity "hold" ;;;
      set_switch_heater_status 0 ;;;
      sleep (SWITCH_HEATER_DELAY self) ;;;
      set_activity "to zero" ;;;
      wait_for_idle_default fuel
    else raise (SwitchHeaterStatusError switch_status).

Definition disable_persistent_mode (self : IPS120_10) (fuel : nat) : M unit :=
  s <- sweep_status ;;
  if negb (String.eqb s "at rest") then
    raise NotAtRest_disable
  else
    f <- field ;;
    sp <- field_setpoint ;;
    (if negb (Qeq_bool f sp) then
       f' <- field ;; set_field_setpoint f'
     else ret tt) ;;;
    switch_status <- switch_heater_status ;;
    if switch_status =? 1 then ret tt
    else if (switch_status =? 0) || (switch_status =? 2) then
      set_activity "to setpoint" ;;;
      wait_for_idle_default fuel ;;;
      set_activity "hold" ;;;
      set_switch_heater_status 1 ;;;
      sleep (SWITCH_HEATER_DELAY self)
    else raise (SwitchHeaterStatusError switch_status).

Definition set_field (self : IPS120_10) (fuel : nat) (target : Q)
  (rate : option Q) (persistent_mode_control : bool) : M unit :=
  f <- field ;;
  if Qeq_bool f target then ret tt
  else
    switch_status <- switch_heater_status ;;
    (if switch_status =? 1 then ret tt
     else if (switch_status =? 0) || (switch_status =? 2) then
       if persistent_mode_control then disable_persistent_mode self fuel
       else raise PersistentModeNotAllowed
     else ret tt) ;;;
    (match rate with
     | Some r => set_sweep_rate r
     | None => ret tt
     end) ;;;
    (if Qeq_bool target 0 then set_activity "to zero"
     else set_activity "to setpoint" ;;; set_field_setpoint target) ;;;
    wait_for_idle_default fuel ;;;
    sleep 10%Q ;;;
    if persistent_mode_control && negb (Qeq_bool target 0)
    then enable_persistent_mode self fuel
    else ret tt.

Fixpoint train_loop (self : IPS120_10) (fuel : nat)
  (training_scheme : list (Q * Q)) : M unit :=
  match training_scheme with
  | [] => ret tt
  | (fld, rate) :: rest =>
      set_field self fuel fld (Some rate) false ;;;
      train_loop self fuel rest
  end.

Definition train_magnet (self : IPS120_10) (fuel : nat)
  (training_scheme : list (Q * Q)) : M unit :=
  train_loop self fuel training_scheme ;;;
  set_field self fuel 0%Q None true.

End Driver.

Notation "x <- m ;; k" := (bind m (fun x => k))
  (at level 61, m at next level, right associativity).
Notation "m ;;; k" := (bind m (fun _ => k))
  (at level 61, right associativity).

(** ** Observing a run *)

Section Observations.

Context {E : Env}.

(** The set commands of a log, in order. *)
Definition is_write (e : event) : bool :=
  match e with
  | Wrote _ => true
  | _ => false
  end.

Definition writes (l : list event) : list event := filter is_write l.

(** An event that is no set command. *)
Definition quiet (e : event) : bool := negb (is_write e).

(** The time [n] sleeps of [d] take. *)
Fixpoint intervals (n : nat) (d : Q) : Q :=
  match n with
  | O => 0%Q
  | S n' => (d + intervals n' d)%Q
  end.

(** The log of [n] polls of [wait_for_idle]. *)
Fixpoint polls (n : nat) (delay : Q) : list event :=
  match n with
  | O => []
  | S n' => Slept delay :: Asked "X" :: polls n' delay
  end.

(** A value of the loop variable [status] other than "at rest". *)
Definition not_at_rest (status : option string) : bool :=
  match status with
  | Some s => negb (String.eqb s "at rest")
  | None => true
  end.

(** A switch-heater command. *)
Definition is_heater_write (e : event) : bool :=
  match e with
  | Wrote (SetInt fmt _) => String.eqb fmt "$H%d"
  | _ => false
  end.

(** The command that turns the switch heater off. *)
Definition is_heater_off (e : event) : bool :=
  match e with
  | Wrote (SetInt fmt z) => String.eqb fmt "$H%d" && (z =? 0)
  | _ => false
  end.

(** [w'] is [w] after some more events that all satisfy [P]; the class-level
    field range is the same list. *)
Definition extends (P : event -> bool) (w w' : World (E := E)) : Prop :=
  FIELD_RANGE w' = FIELD_RANGE w /\
  exists l, trace w' = trace w ++ l /\ forallb P l = true.

(** Every run of [m], finished or not, only adds events that satisfy [P]. *)
Definition emits (P : event -> bool) {A} (m : M (E := E) A) : Prop :=
  forall w, extends P w (snd (m w)).

(** The world after [n] more polls of the sweep status. *)
Definition after_polls (delay : Q) (w : World (E := E)) (n : nat) : World :=
  Nat.iter n (fun w' => snd (sweep_status (do_sleep delay w'))) w.

(** The number of polls among the first [k] that [failed] marks. *)
Fixpoint errors_upto (failed : nat -> bool) (k : nat) : Z :=
  match k with
  | O => 0
  | S k' => errors_upto failed k' + (if failed k' then 1 else 0)
  end.

(** The set commands each method may send. *)
Definition int_command (fmt : string) (codes : list Z) (e : event) : bool :=
  match e with
  | Wrote (SetInt fmt' z) =>
      String.eqb fmt' fmt && existsb (Z.eqb z) codes
  | _ => false
  end.

Definition float_command (fmt : string) (e : event) : bool :=
  match e with
  | Wrote (SetFloat fmt' _) => String.eqb fmt' fmt
  | _ => false
  end.

Definition enable_control_event (e : event) : bool :=
  match e with
  | Asked _ => true
  | Wrote _ =>
      int_command "$C%d" [0; 1; 2; 3] e || int_command "$A%d" [0] e
      || int_command "$H%d" [1] e
  | Slept _ | Cleared => false
  end.

Definition disable_control_event (e : event) : bool :=
  match e with
  | Asked _ => true
  | Wrote _ =>
      int_command "$H%d" [0] e || int_command "$A%d" [4] e
      || int_command "$C%d" [0; 1; 2; 3] e
  | Slept _ | Cleared => false
  end.

Definition enable_persistent_event (e : event) : bool :=
  match e with
  | Asked _ | Slept _ => true
  | Wrote _ => int_command "$A%d" [0; 2] e || int_command "$H%d" [0] e
  | Cleared => false
  end.

Definition disable_persistent_event (e : event) : bool :=
  match e with
  | Asked _ | Slept _ => true
  | Wrote _ =>
      float_command "$J%f" e || int_command "$A%d" [1; 0] e
      || int_command "$H%d" [1] e
  | Cleared => false
  end.

(** [set_field] without control of the persistent mode. *)
Definition ramp_event (e : event) : bool :=
  match e with
  | Asked _ | Slept _ => true
  | Wrote _ =>
      float_command "$T%f" e || float_command "$J%f" e
      || int_command "$A%d" [1; 2] e
  | Cleared => false
  end.

(** [set_field] with control of the persistent mode. *)
Definition set_field_event (e : event) : bool :=
  ramp_event e || enable_persistent_event e || disable_persistent_event e.

(** A method of another instance runs on that instance's channel, in the same
    process: same class attributes, same log. *)
Definition attach (d : dstate (chan E)) (w : World (E := E)) : World :=
  {| FIELD_RANGE := FIELD_RANGE w; dev := d; slept := slept w;
     trace := trace w |}.

(** The calls a user can make on an instance once it is constructed. *)
Inductive operation : Type :=
| Get_int (cmd : string) (k : nat)
| Get_float (cmd : string)
| Set_control_mode (value : string)
| Set_switch_heater_status (value : Z)
| Set_current_setpoint (value : Q)
| Set_field_setpoint (value : Q)
| Set_sweep_rate (value : Q)
| Set_activity (value : string)
| Get_field
| Enable_control
| Disable_control
| Enable_persistent_mode
| Disable_persistent_mode
| Wait_for_idle (delay : Q) (max_errors : option Z) (max_wait_time : option Q)
    (should_stop : World (E := E) -> bool)
| Set_field (target : Q) (rate : option Q) (persistent_mode_control : bool)
| Train_magnet (training_scheme : list (Q * Q)).

Definition perform (self : IPS120_10) (fuel : nat) (op : operation) : M unit :=
  match op with
  | Get_int cmd k => bind (query_int cmd k) (fun _ => ret tt)
  | Get_float cmd => bind (query_float cmd) (fun _ => ret tt)
  | Set_control_mode v => set_control_mode v
  | Set_switch_heater_status v => set_switch_heater_status v
  | Set_current_setpoint v => set_current_setpoint v
  | Set_field_setpoint v => set_field_setpoint v
  | Set_sweep_rate v => set_sweep_rate v
  | Set_activity v => set_activity v
  | Get_field => bind field (fun _ => ret tt)
  | Enable_control => enable_control
  | Disable_control => disable_control
  | Enable_persistent_mode => enable_persistent_mode self fuel
  | Disable_persistent_mode => disable_persistent_mode self fuel
  | Wait_for_idle d me mw ss => wait_for_idle fuel d me mw ss
  | Set_field t r p => set_field self fuel t r p
  | Train_magnet s => train_magnet self fuel s
  end.

End Observations.

(** ** Devices and validators to run the driver on *)

(** A device that answers from a script, one entry per query, whatever the
    query; it ignores what is written to it, a query past the end of the
    script gets no reply, and it answers at once. *)
Inductive reply : Type :=
| Fails (e : exn)
| Int (z : Z)
| Float (q : Q).

Definition scripted : Device := {|
  dstate := list reply;
  ask_int := fun _ _ s =>
    match s with
    | [] => (inl (OSError "no reply"), [])
    | Fails e :: s' => (inl e, s')
    | Int z :: s' => (inr z, s')
    | Float _ :: s' => (inl (ValueError "invalid literal for int()"), s')
    end;
  ask_float := fun _ s =>
    match s with
    | [] => (inl (OSError "no reply"), [])
    | Fails e :: s' => (inl e, s')
    | Int z :: s' => (inr (inject_Z z), s')
    | Float q :: s' => (inr q, s')
    end;
  send := fun _ s => s;
  elapse := fun _ s => s;
  clear := fun s => s;
  lag := fun _ => 0%Q
|}.


(** An idealised supply: registers that hold what is written to them, ramps
    that complete at once (so it is always at rest), an output that follows
    the set-point while the activity is "to setpoint", and a magnet that
    follows the output while the switch heater is on. *)
Record sim : Type := {
  sim_activity : Z;
  sim_control : Z;
  sim_heater : Z;
  sim_setpoint : Q;
  sim_rate : Q;
  sim_output : Q;
  sim_magnet : Q
}.

Definition sim_settle (s : sim) : sim :=
  let out :=
    if sim_activity s =? 1 then sim_setpoint s
    else if sim_activity s =? 2 then 0%Q
    else sim_output s in
  {| sim_activity := sim_activity s; sim_control := sim_control s;
     sim_heater := sim_heater s; sim_setpoint := sim_setpoint s;
     sim_rate := sim_rate s; sim_output := out;
     sim_magnet := if sim_heater s =? 1 then out else sim_magnet s |}.

Definition sim_send (c : command) (s : sim) : sim :=
  match c with
  | SetInt fmt z =>
      if String.eqb fmt "$A%d" then
        sim_settle {| sim_activity := z; sim_control := sim_control s;
                      sim_heater := sim_heater s; sim_setpoint := sim_setpoint s;
                      sim_rate := sim_rate s; sim_output := sim_output s;
                      sim_magnet := sim_magnet s |}
      else if String.eqb fmt "$H%d" then
        sim_settle {| sim_activity := sim_activity s; sim_control := sim_control s;
                      sim_heater := z; sim_setpoint := sim_setpoint s;
                      sim_rate := sim_rate s; sim_output := sim_output s;
                      sim_magnet := sim_magnet s |}
      else if String.eqb fmt "$C%d" then
        {| sim_activity := sim_activity s; sim_control := z;
           sim_heater := sim_heater s; sim_setpoint := sim_setpoint s;
           sim_rate := sim_rate s; sim_output := sim_output s;
           sim_magnet := sim_magnet s |}
      else s
  | SetFloat fmt q =>
      if String.eqb fmt "$J%f" then
        sim_settle {| sim_activity := sim_activity s; sim_control := sim_control s;
                      sim_heater := sim_heater s; sim_setpoint := q;
                      sim_rate := sim_rate s; sim_output := sim_output s;
                      sim_magnet := sim_magnet s |}
      else if String.eqb fmt "$T%f" then
        {| sim_activity := sim_activity s; sim_control := sim_control s;
           sim_heater := sim_heater s; sim_setpoint := sim_setpoint s;
           sim_rate := q; sim_output := sim_output s;
           sim_magnet := sim_magnet s |}
      else s
  end.

Definition simulated : Device := {|
  dstate := sim;
  ask_int := fun cmd k s =>
    (inr (if String.eqb cmd "X" then
            match k with
            | 4%nat => sim_activity s
            | 6%nat => sim_control s
            | 8%nat => sim_heater s
            | _ => 0
            end
          else 0), s);
  ask_float := fun cmd s =>
    (inr (if String.eqb cmd "R7" then sim_output s
          else if String.eqb cmd "R18" then sim_magnet s
          else if String.eqb cmd "R8" then sim_setpoint s
          else if String.eqb cmd "R9" then sim_rate s
          else 0%Q), s);
  send := sim_send;
  elapse := fun _ s => s;
  clear := fun s => s;
  lag := fun _ => 0%Q
|}.

(** The supply as it is after a cool-down and [enable_control]: remote,
    holding, heater on, no field. *)
Definition sim_cold : sim := {|
  sim_activity := 0; sim_control := 3; sim_heater := 1;
  sim_setpoint := 0%Q; sim_rate := 0%Q; sim_output := 0%Q; sim_magnet := 0%Q
|}.

(** Two validators for the range properties.  One replaces a value outside
    [min(values), max(values)] by the nearest of the two bounds, as the name
    of the imported validator says; the other raises, as a validator that
    rejects would. *)
Fixpoint Qmin_list (l : list Q) : option Q :=
  match l with
  | [] => None
  | x :: l' =>
      match Qmin_list l' with
      | None => Some x
      | Some m => Some (if Qle_bool x m then x else m)
      end
  end.

Fixpoint Qmax_list (l : list Q) : option Q :=
  match l with
  | [] => None
  | x :: l' =>
      match Qmax_list l' with
      | None => Some x
      | Some m => Some (if Qle_bool m x then x else m)
      end
  end.

Definition truncating (value : Q) (values : list Q) : exn + Q :=
  match Qmin_list values, Qmax_list values with
  | Some lo, Some hi =>
      if Qle_bool lo value && Qle_bool value hi then inr value
      else if Qgtb value hi then inr hi
      else inr lo
  | _, _ => inl (ValueError "min() arg is an empty sequence")
  end.

Definition rejecting (value : Q) (values : list Q) : exn + Q :=
  match Qmin_list values, Qmax_list values with
  | Some lo, Some hi =>
      if Qle_bool lo value && Qle_bool value hi then inr value
      else inl (ValueError "value is not in range")
  | _, _ => inl (ValueError "min() arg is an empty sequence")
  end.

(** What the name of [truncated_range] says of a validator: a value within
    [min(values), max(values)] is returned as it is, a value above is
    replaced by the maximum and a value below by the minimum. *)
Definition truncates (validator : Q -> list Q -> exn + Q) : Prop :=
  forall value values lo hi,
    Qmin_list values = Some lo -> Qmax_list values = Some hi ->
    validator value values =
    inr (if Qle_bool lo value && Qle_bool value hi then value
         else if Qgtb value hi then hi else lo).

Definition membership (value : string) (values : list (string * Z))
  : exn + string :=
  match dict_get values value with
  | Some _ => inr value
  | None => inl (ValueError "value is not in the discrete set")
  end.

Definition env (d : Device) (validator : Q -> list Q -> exn + Q) : Env :=
  {| chan := d; truncated_range := validator;
     strict_discrete_set := membership |}.

(** The world of a fresh process whose first instance talks to a device in
    state [s]. *)
Definition boot (E : Env) (s : dstate (chan E)) : World (E := E) :=
  {| FIELD_RANGE := _FIELD_RANGE_initial; dev := s; slept := 0%Q;
     trace := [] |}.

(** An instance constructed with the default arguments. *)
Definition ips : IPS120_10 := {| inst_SWITCH_HEATER_DELAY := None |}.


(** The driver linked with the scripted device and the truncating validator. *)
Definition lab : Env := env scripted truncating.

(** * Input fields of an experiment

    A shallow embedding of [pymeasure/experiment/parameters.py]: the conversion
    and validation of the values given to the typed input fields.  Python
    values are values of [pyval]; an exception is an [error] with the raise
    statement it comes from; a method that assigns to [self] returns the
    object it leaves. *)

Module Parameters.

(** The raise statements of the module, and the builtins that raise. *)
Inductive reason : Type :=
| SeparatorInName
| InvalidGroupBy
| ValueNotSet
| UnitsDoNotMatch
| NotAnInteger
| BelowMinimum
| AboveMaximum
| BooleanGivenString
| NotABoolean
| ChoicesNotUnique
| ChoicesAreNone
| InvalidChoice
| FgetAndNewValue
| FromBuiltin.

Inductive error : Type :=
| ValueError (why : reason)
| TypeError (why : reason)
| OverflowError
| AttributeError.

Inductive outcome (A : Type) : Type :=
| Ok (a : A)
| Raise (e : error).
Arguments Ok {A} a.
Arguments Raise {A} e.

Definition and_then {A B} (r : outcome A) (k : A -> outcome B) : outcome B :=
  match r with
  | Ok a => k a
  | Raise e => Raise e
  end.

(** A Python float: a rational, or one of the special values. *)
Inductive pyfloat : Type :=
| Finite (q : Q)
| NaN
| Infinity (negative : bool).

(** The Python values the fields tell apart with [isinstance]: [None], a
    [bool], an [int] that is no [bool], a [float], a [str], a [list], a
    [tuple], and an object of any other class. *)
#[warnings="-register-all"]
Inductive pyval : Type :=
| PNone
| PBool (b : bool)
| PInt (z : Z)
| PFloat (f : pyfloat)
| PStr (s : string)
| PList (l : list pyval)
| PTuple (l : list pyval)
| PObj (o : nat).

Definition is_None (v : pyval) : bool :=
  match v with
  | PNone => true
  | _ => false
  end.

(** [isinstance(value, str)]. *)
Definition is_str (v : pyval) : bool :=
  match v with
  | PStr _ => true
  | _ => false
  end.

(** [isinstance(value, (int, float))]: a [bool] is an [int]. *)
Definition is_int_or_float (v : pyval) : bool :=
  match v with
  | PBool _ | PInt _ | PFloat _ => true
  | _ => false
  end.

(** [isinstance(value, bool)]. *)
Definition is_bool (v : pyval) : bool :=
  match v with
  | PBool _ => true
  | _ => false
  end.

(** [value == n] for a number [value] and an integer [n]. *)
Definition equals_int (v : pyval) (n : Z) : bool :=
  match v with
  | PBool b => (if b then 1 else 0) =? n
  | PInt z => z =? n
  | PFloat (Finite q) => Qeq_bool q (inject_Z n)
  | _ => false
  end.

(** [bool(value)] for a number. *)
Definition truth (v : pyval) : bool :=
  match v with
  | PBool b => b
  | PInt z => negb (z =? 0)
  | PFloat (Finite q) => negb (Qeq_bool q 0)
  | PFloat _ => true
  | _ => false
  end.

(** [s.lower()], which on the letters that matter here is the ASCII one. *)
Definition lower_ascii (c : Ascii.ascii) : Ascii.ascii :=
  let n := Ascii.nat_of_ascii c in
  if (65 <=? n)%nat && (n <=? 90)%nat then Ascii.ascii_of_nat (n + 32) else c.

Fixpoint lower (s : string) : string :=
  match s with
  | EmptyString => EmptyString
  | String c s' => String (lower_ascii c) (lower s')
  end.

(** [s.partition(" ")]: what is before the first space, the space if there
    is one, and what is after it. *)
Fixpoint partition_space (s : string) : string * string * string :=
  match s with
  | EmptyString => ("", "", "")
  | String c s' =>
      if Ascii.eqb c Ascii.Space then ("", " ", s')
      else
        let '(before, sep, rest) := partition_space s' in
        (String c before, sep, rest)
  end.

(** [s.startswith(sub)] and [sub in s]. *)
Fixpoint startswith (s sub : string) {struct sub} : bool :=
  match sub with
  | EmptyString => true
  | String a sub' =>
      match s with
      | EmptyString => false
      | String b s' => Ascii.eqb a b && startswith s' sub'
      end
  end.

Fixpoint contains (sub s : string) : bool :=
  startswith s sub ||
  match s with
  | EmptyString => false
  | String _ s' => contains sub s'
  end.

(** [s.endswith(suffix)] and [s[:-n]]; the latter is empty for [n = 0]. *)
Definition endswith (s suffix : string) : bool :=
  (String.length suffix <=? String.length s)%nat &&
  String.eqb
    (String.substring (String.length s - String.length suffix)
       (String.length suffix) s)
    suffix.

Definition drop_last (n : nat) (s : string) : string :=
  match n with
  | O => ""
  | _ => String.substring 0 (String.length s - n) s
  end.

(** A Python dictionary with [str] keys, in insertion order. *)
Definition dict : Type := list (string * pyval).

Fixpoint lookup (d : dict) (k : string) : option pyval :=
  match d with
  | [] => None
  | (k', v) :: d' => if String.eqb k' k then Some v else lookup d' k
  end.

(** [d[k] = v]: a key that is there keeps its place. *)
Fixpoint store (d : dict) (k : string) (v : pyval) : dict :=
  match d with
  | [] => [(k, v)]
  | (k', v') :: d' =>
      if String.eqb k' k then (k', v) :: d' else (k', v') :: store d' k v
  end.

(** [{k: v for k, v in zip(keys, values)}]. *)
Fixpoint dict_of_zip (d : dict) (keys : list string) (values : list pyval)
  : dict :=
  match keys, values with
  | k :: keys', v :: values' => dict_of_zip (store d k v) keys' values'
  | _, _ => d
  end.

(** [len(keys) == len(set(keys))]. *)
Fixpoint unique (keys : list string) : bool :=
  match keys with
  | [] => true
  | k :: keys' => negb (existsb (String.eqb k) keys') && unique keys'
  end.

Section Fields.

(** The builtins the fields call, for any Python: [int(s)] of a [str] ([None]
    when it raises its [ValueError]), [int(o)] and [str(o)] of an object,
    [str(v)] of a value that is no [str], and [s.strip()]. *)
Variable str_to_int : string -> option Z.
Variable obj_to_int : nat -> error + Z.
Variable obj_truth : nat -> bool.
Variable to_str : pyval -> string.
Variable strip : string -> string.

(** The truth value of [value], as [if value] tests it. *)
Definition truthy (value : pyval) : bool :=
  match value with
  | PNone => false
  | PStr s => negb (String.eqb s "")
  | PList l | PTuple l => negb (Nat.eqb (List.length l) 0)
  | PObj o => obj_truth o
  | _ => truth value
  end.

(** [int(value)]. *)
Definition int (value : pyval) : outcome Z :=
  match value with
  | PBool b => Ok (if b then 1 else 0)
  | PInt z => Ok z
  | PFloat (Finite q) => Ok (Z.quot (Qnum q) (Z.pos (Qden q)))
  | PFloat NaN => Raise (ValueError FromBuiltin)
  | PFloat (Infinity _) => Raise OverflowError
  | PStr s =>
      match str_to_int s with
      | Some z => Ok z
      | None => Raise (ValueError FromBuiltin)
      end
  | PNone | PList _ | PTuple _ => Raise (TypeError FromBuiltin)
  | PObj o =>
      match obj_to_int o with
      | inl e => Raise e
      | inr z => Ok z
      end
  end.

(** [str(value)]. *)
Definition str (value : pyval) : string :=
  match value with
  | PStr s => s
  | _ => to_str value
  end.

(** ** [InputField] *)

(** The [group_by] argument: [None], a dictionary, a string, a list or tuple,
    or something else. *)
Inductive group_by_arg : Type :=
| GroupNone
| GroupDict (d : dict)
| GroupStr (s : string)
| GroupSeq (l : list pyval)
| GroupOther.

Inductive help_field : Type :=
| Field (name : string)
| Labelled (label name : string).

Record InputField : Type := {
  name : string;
  _value : pyval;
  default : pyval;
  ui_class : pyval;
  _help_fields : list help_field;
  group_by : dict
}.

Definition is_set (self : InputField) : bool := negb (is_None (_value self)).

(** The [value] property. *)
Definition value (self : InputField) : outcome pyval :=
  if is_set self then Ok (_value self) else Raise (ValueError ValueNotSet).

(** Its setter, for the [convert] of the class of [self]. *)
Definition set_value (convert : pyval -> outcome pyval) (self : InputField)
  (v : pyval) : outcome InputField :=
  and_then (convert v) (fun v' =>
  Ok {| name := name self; _value := v'; default := default self;
        ui_class := ui_class self; _help_fields := _help_fields self;
        group_by := group_by self |}).

(** [self._help_fields.append(...)], as the subclasses do after
    [super().__init__]. *)
Definition help_append (self : InputField) (more : list help_field)
  : InputField :=
  {| name := name self; _value := _value self; default := default self;
     ui_class := ui_class self; _help_fields := _help_fields self ++ more;
     group_by := group_by self |}.

(** [InputField.convert]. *)
Definition convert (v : pyval) : outcome pyval := Ok v.

(** A caller that assigns the values of [vs] to [self.value] one after the
    other and goes on when an assignment raises. *)
Definition assignments (convert : pyval -> outcome pyval) (self : InputField)
  (vs : list pyval) : InputField :=
  List.fold_left
    (fun f v =>
       match set_value convert f v with
       | Ok f' => f'
       | Raise _ => f
       end)
    vs self.

Fixpoint all_str (l : list pyval) : option (list string) :=
  match l with
  | [] => Some []
  | PStr s :: l' => option_map (cons s) (all_str l')
  | _ :: _ => None
  end.

Definition normalise_group_by (g : group_by_arg) (group_condition : pyval)
  : outcome dict :=
  match g with
  | GroupDict d => Ok d
  | GroupStr s => Ok [(s, group_condition)]
  | GroupSeq l =>
      match all_str l with
      | Some names =>
          match group_condition with
          | PList conditions | PTuple conditions =>
              Ok (dict_of_zip [] names conditions)
          | _ =>
              Ok (dict_of_zip [] names
                    (List.map (fun _ => group_condition) names))
          end
      | None => Raise (TypeError InvalidGroupBy)
      end
  | GroupOther => Raise (TypeError InvalidGroupBy)
  | GroupNone => Ok []
  end.

(** [InputField.__init__], for the [convert] of the class being built. *)
Definition InputField__init__ (convert : pyval -> outcome pyval)
  (name : string) (default ui_class : pyval) (group_by : group_by_arg)
  (group_condition : pyval) : outcome InputField :=
  if contains ": " name then Raise (ValueError SeparatorInName)
  else
    and_then (if is_None default then Ok PNone else convert default)
      (fun v =>
    and_then (normalise_group_by group_by group_condition) (fun g =>
    Ok {| name := name; _value := v; default := default;
          ui_class := ui_class;
          _help_fields := [Labelled "units are" "units"; Field "default"];
          group_by := g |})).

(** ** [BooleanInputField] *)

Definition Boolean_convert (value : pyval) : outcome pyval :=
  match value with
  | PStr s =>
      if String.eqb (lower s) "true" then Ok (PBool true)
      else if String.eqb (lower s) "false" then Ok (PBool false)
      else Raise (ValueError BooleanGivenString)
  | _ =>
      if is_int_or_float value && (equals_int value 0 || equals_int value 1)
      then Ok (PBool (truth value))
      else if is_bool value then Ok value
      else Raise (ValueError NotABoolean)
  end.

(** ** [IntegerInputField] *)

Record IntegerInputField : Type := {
  Integer_field : InputField;
  Integer_units : option string;
  minimum : Z;
  maximum : Z;
  step : option Z
}.

(** [units != self.units] for the [str] [units]. *)
Definition differs (units : string) (self_units : option string) : bool :=
  match self_units with
  | Some u => negb (String.eqb units u)
  | None => true
  end.

(** [IntegerInputField.convert], which only reads the units and the bounds
    of [self]. *)
Definition Integer_convert (self_units : option string)
  (self_minimum self_maximum : Z) (value : pyval) : outcome pyval :=
  and_then
    (match value with
     | PStr s =>
         let '(v, _, units) := partition_space (strip s) in
         if negb (String.eqb units "") && differs units self_units
         then Raise (ValueError UnitsDoNotMatch)
         else Ok (PStr v)
     | _ => Ok value
     end)
    (fun value =>
  and_then
    (match int value with
     | Ok z => Ok z
     | Raise (ValueError _) => Raise (ValueError NotAnInteger)
     | Raise e => Raise e
     end)
    (fun z =>
  if z <? self_minimum then Raise (ValueError BelowMinimum)
  else if z >? self_maximum then Raise (ValueError AboveMaximum)
  else Ok (PInt z))).

(** [IntegerInputField.__init__]; the keyword arguments are those of
    [InputField.__init__]. *)
Definition IntegerInputField__init__ (name : string) (units : option string)
  (minimum maximum step : pyval) (default ui_class : pyval)
  (group_by : group_by_arg) (group_condition : pyval)
  : outcome IntegerInputField :=
  and_then (int minimum) (fun lo =>
  and_then (int maximum) (fun hi =>
  and_then (InputField__init__ (Integer_convert units lo hi) name default
              ui_class group_by group_condition) (fun f =>
  and_then (if truthy step then and_then (int step) (fun z => Ok (Some z))
            else Ok None)
    (fun st =>
  Ok {| Integer_field := help_append f [Field "minimum"; Field "maximum"];
        Integer_units := units; minimum := lo; maximum := hi;
        step := st |})))).

(** ** [ListInputField] *)

Record ListInputField : Type := {
  List_field : InputField;
  List_units : option string;
  _choices : option dict
}.

(** [ListInputField.convert], which only reads the units and the choices of
    [self]. *)
Definition List_convert (self_units : option string)
  (self_choices : option dict) (value : pyval) : outcome pyval :=
  match self_choices with
  | None => Raise (ValueError ChoicesAreNone)
  | Some the_choices =>
      let value :=
        match value, self_units with
        | PStr s, Some units =>
            if endswith s (" " ++ units)
            then PStr (strip (drop_last (String.length units) s))
            else value
        | _, _ => value
        end in
      match lookup the_choices (str value) with
      | Some choice => Ok choice
      | None => Raise (ValueError InvalidChoice)
      end
  end.

(** The dictionary [__init__] makes of the choices. *)
Definition choices_dict (choices : option (list pyval)) : outcome (option dict) :=
  match choices with
  | Some cs =>
      let keys := List.map str cs in
      if negb (unique keys) then Raise (ValueError ChoicesNotUnique)
      else Ok (Some (dict_of_zip [] keys cs))
  | None => Ok None
  end.

Definition ListInputField__init__ (name : string)
  (choices : option (list pyval)) (units : option string)
  (default ui_class : pyval) (group_by : group_by_arg)
  (group_condition : pyval) : outcome ListInputField :=
  and_then (choices_dict choices) (fun d =>
  and_then (InputField__init__ (List_convert units d) name default ui_class
              group_by group_condition) (fun f =>
  Ok {| List_field := help_append f [Labelled "choices are" "choices"];
        List_units := units; _choices := d |})).

(** The [choices] property: [tuple(self._choices.values())]. *)
Definition choices (self : ListInputField) : outcome (list pyval) :=
  match _choices self with
  | Some d => Ok (List.map snd d)
  | None => Raise AttributeError
  end.

(** ** [Metadata] *)

(** What [eval_fget] needs of the objects it walks: [getattr(obj, name)],
    [callable(obj)] and [obj()]. *)
Variable getattr : pyval -> string -> outcome pyval.
Variable callable : pyval -> bool.
Variable call : pyval -> outcome pyval.

(** [s.split('.')]. *)
Fixpoint split_dots (s : string) : list string :=
  match s with
  | EmptyString => [""]
  | String c s' =>
      if Ascii.eqb c (Ascii.ascii_of_nat 46) then "" :: split_dots s'
      else
        match split_dots s' with
        | first :: rest => String c first :: rest
        | [] => [String c ""]
        end
  end.

Fixpoint getattrs (obj : pyval) (names : list string) : outcome pyval :=
  match names with
  | [] => Ok obj
  | n :: names' => and_then (getattr obj n) (fun o => getattrs o names')
  end.

Record Metadata : Type := {
  Metadata_field : InputField;
  fget : pyval;
  evaluated : bool
}.

Definition eval_fget (self : Metadata) (parent : pyval) : outcome pyval :=
  and_then
    (match fget self with
     | PStr path => getattrs parent (split_dots path)
     | f => Ok f
     end)
    (fun f => if callable f then call f else Ok f).

Definition with_value (self : InputField) (v : pyval) : InputField :=
  {| name := name self; _value := v; default := default self;
     ui_class := ui_class self; _help_fields := _help_fields self;
     group_by := group_by self |}.

(** [Metadata.evaluate]: the object it leaves, and what it returns or
    raises. *)
Definition evaluate (self : Metadata) (parent new_value : pyval)
  : Metadata * outcome pyval :=
  if negb (is_None new_value) && negb (is_None (fget self)) then
    (self, Raise (ValueError FgetAndNewValue))
  else
    match
      (if negb (is_None new_value) then Ok new_value
       else if negb (is_None (fget self)) then eval_fget self parent
       else Ok (_value (Metadata_field self)))
    with
    | Raise e => (self, Raise e)
    | Ok v =>
        let self' :=
          {| Metadata_field := with_value (Metadata_field self) v;
             fget := fget self; evaluated := true |} in
        (self', value (Metadata_field self'))
    end.

End Fields.

(** Builtins to run the fields with: an [int()] that reads plain decimal
    digits, objects that [int()] refuses, a [str()] that only knows strings
    and small integers, and a [strip()] for strings that have nothing to
    strip. *)
Definition digit (c : Ascii.ascii) : option Z :=
  let n := Ascii.nat_of_ascii c in
  if (48 <=? n)%nat && (n <=? 57)%nat then Some (Z.of_nat (n - 48)) else None.

Fixpoint digits (acc : Z) (s : string) : option Z :=
  match s with
  | EmptyString => Some acc
  | String c s' =>
      match digit c with
      | Some d => digits (10 * acc + d) s'
      | None => None
      end
  end.

Definition plain_int (s : string) : option Z :=
  match s with
  | EmptyString => None
  | _ => digits 0 s
  end.

Definition no_int (o : nat) : error + Z := inl (TypeError FromBuiltin).

Definition plain_str (v : pyval) : string :=
  match v with
  | PInt 1 => "1"
  | PInt 2 => "2"
  | PInt 3 => "3"
  | PNone => "None"
  | _ => "?"
  end.

Definition no_strip (s : string) : string := s.

End Parameters.
(** * Properties *)

Section Properties.

Context {E : Env}.

Local Abbreviation World := (World (E := E)).
Local Abbreviation M := (M (E := E)).
Local Abbreviation emits := (emits (E := E)).

Implicit Types (w : World) (P : event -> bool) (self : IPS120_10).

(** ** Running a computation step by step *)

Lemma bind_returned {A B} (m : M A) (k : A -> M B) w a w' :
  m w = (Returned a, w') -> bind m k w = k a w'.
Proof. intros H. unfold bind. now rewrite H. Qed.

Lemma bind_raised {A B} (m : M A) (k : A -> M B) w e w' :
  m w = (Raised e, w') -> bind m k w = (Raised e, w').
Proof. intros H. unfold bind. now rewrite H. Qed.

Lemma bind_assoc {A B C} (m : M A) (k : A -> M B) (h : B -> M C) w :
  bind (bind m k) h w = bind m (fun a => bind (k a) h) w.
Proof. unfold bind. destruct (m w) as [[a| e |] w1]; reflexivity. Qed.

Lemma try_returned {A} (m : M A) w a w' :
  m w = (Returned a, w') -> try_ValueError m w = (Returned (inr a), w').
Proof. intros H. unfold try_ValueError. now rewrite H. Qed.

Lemma try_caught {A} (m : M A) w e w' :
  m w = (Raised e, w') -> is_ValueError e = true ->
  try_ValueError m w = (Returned (inl e), w').
Proof. intros H He. unfold try_ValueError. now rewrite H, He. Qed.

Lemma try_uncaught {A} (m : M A) w e w' :
  m w = (Raised e, w') -> is_ValueError e = false ->
  try_ValueError m w = (Raised e, w').
Proof. intros H He. unfold try_ValueError. now rewrite H, He. Qed.

(** ** What a run adds to the log *)

Lemma extends_refl P w : extends P w w.
Proof.
  split; [reflexivity|]. exists []. now rewrite app_nil_r.
Qed.

Lemma extends_trans P w1 w2 w3 :
  extends P w1 w2 -> extends P w2 w3 -> extends P w1 w3.
Proof.
  intros [R1 [l1 [T1 F1]]] [R2 [l2 [T2 F2]]]. split; [congruence|].
  exists (l1 ++ l2). rewrite T2, T1, app_assoc, forallb_app, F1, F2. now split.
Qed.

Lemma extends_weaken P P' w w' :
  (forall e, P e = true -> P' e = true) -> extends P w w' -> extends P' w w'.
Proof.
  intros HP [R [l [T F]]]. split; [exact R|]. exists l. split; [exact T|].
  rewrite forallb_forall in *. auto.
Qed.

Lemma extends_log P e d w : P e = true -> extends P w (log e d w).
Proof.
  intros He. split; [reflexivity|]. exists [e]. simpl. now rewrite He.
Qed.

Lemma extends_sleep P d w : P (Slept d) = true -> extends P w (do_sleep d w).
Proof.
  intros He. split; [reflexivity|]. exists [Slept d]. simpl. now rewrite He.
Qed.

Lemma extends_writes w w' :
  extends quiet w w' ->
  writes (trace w') = writes (trace w).
Proof.
  intros [_ [l [T F]]]. unfold writes. rewrite T, filter_app.
  replace (filter is_write l) with (@nil event); [now rewrite app_nil_r|].
  symmetry. clear T. induction l as [|e l IH]; [reflexivity|].
  simpl in *. apply andb_true_iff in F as [F1 F2]. unfold quiet in F1.
  destruct (is_write e); [discriminate F1|]. auto.
Qed.

Lemma emits_ret P {A} (a : A) : emits P (ret a).
Proof. intros w. apply extends_refl. Qed.

Lemma emits_raise P {A} e : emits P (raise (A := A) e).
Proof. intros w. apply extends_refl. Qed.

Lemma emits_peek P {A} (f : World -> A) : emits P (peek f).
Proof. intros w. apply extends_refl. Qed.

Lemma emits_lift P {A} (r : exn + A) : emits P (lift r).
Proof. destruct r; [apply emits_raise | apply emits_ret]. Qed.

Lemma emits_bind P {A B} (m : M A) (k : A -> M B) :
  emits P m -> (forall a, emits P (k a)) -> emits P (bind m k).
Proof.
  intros Hm Hk w. unfold bind. specialize (Hm w).
  destruct (m w) as [[a| e |] w1]; simpl in *; try exact Hm.
  eapply extends_trans; [exact Hm | apply Hk].
Qed.

Lemma emits_try P {A} (m : M A) : emits P m -> emits P (try_ValueError m).
Proof.
  intros Hm w. unfold try_ValueError. specialize (Hm w).
  destruct (m w) as [[a| e |] w1]; simpl in *; try exact Hm.
  destruct (is_ValueError e); exact Hm.
Qed.

Lemma emits_query_int P cmd k :
  P (Asked cmd) = true -> emits P (query_int cmd k).
Proof.
  intros HP w. unfold query_int.
  destruct (ask_int (chan E) cmd k (dev w)) as [[e|z] d]; simpl;
    now apply extends_log.
Qed.

Lemma emits_query_float P cmd :
  P (Asked cmd) = true -> emits P (query_float cmd).
Proof.
  intros HP w. unfold query_float.
  destruct (ask_float (chan E) cmd (dev w)) as [[e|z] d]; simpl;
    now apply extends_log.
Qed.

Lemma emits_write P c : P (Wrote c) = true -> emits P (write c).
Proof. intros HP w. now apply extends_log. Qed.

Lemma emits_sleep P d : P (Slept d) = true -> emits P (sleep d).
Proof. intros HP w. now apply extends_sleep. Qed.

Lemma emits_weaken P P' {A} (m : M A) :
  (forall e, P e = true -> P' e = true) -> emits P m -> emits P' m.
Proof. intros HP Hm w. eapply extends_weaken; [exact HP | apply Hm]. Qed.

(** Breaks a computation into its primitives; what remains are the side
    conditions on the events and the calls it does not know. *)
Ltac emits_step :=
  match goal with
  | |- emits _ (bind _ _) => apply emits_bind; [|intros]
  | |- emits _ (ret _) => apply emits_ret
  | |- emits _ (raise _) => apply emits_raise
  | |- emits _ (peek _) => apply emits_peek
  | |- emits _ (lift _) => apply emits_lift
  | |- emits _ (try_ValueError _) => apply emits_try
  | |- emits _ (query_int _ _) => apply emits_query_int
  | |- emits _ (query_float _) => apply emits_query_float
  | |- emits _ (write _) => apply emits_write
  | |- emits _ (sleep _) => apply emits_sleep
  | |- emits _ (if ?b then _ else _) => destruct b
  | |- emits _ (match ?x with _ => _ end) => destruct x
  end.

Ltac emits_auto := repeat emits_step.

Section Emission.

(** A class of events that holds every query and every sleep. *)
Variable P : event -> bool.
Hypothesis P_asked : forall cmd, P (Asked cmd) = true.
Hypothesis P_slept : forall d, P (Slept d) = true.

Lemma emits_mapped_get cmd k values : emits P (mapped_get cmd k values).
Proof. unfold mapped_get. emits_auto; auto. Qed.

Lemma field_emits : emits P field.
Proof.
  unfold field, switch_heater_status, persistent_field, demand_field.
  emits_auto; auto.
Qed.

Lemma wait_loop_emits fuel delay max_errors max_wait_time should_stop :
  forall error_ct start_time status,
    emits P (wait_loop fuel delay max_errors max_wait_time should_stop
               error_ct start_time status).
Proof.
  induction fuel as [|fuel IH]; intros error_ct start_time status.
  - intros w. apply extends_refl.
  - simpl. unfold time, sweep_status.
    repeat first [ apply IH | apply emits_mapped_get | emits_step ]; auto.
Qed.

Lemma wait_for_idle_emits fuel delay max_errors max_wait_time should_stop :
  emits P (wait_for_idle fuel delay max_errors max_wait_time should_stop).
Proof.
  unfold wait_for_idle, time. apply emits_bind; [apply emits_peek|].
  intros t. apply wait_loop_emits.
Qed.

(** ... and every set command that is not for the switch heater. *)
Hypothesis P_other :
  forall c, is_heater_write (Wrote c) = false -> P (Wrote c) = true.

Lemma mapped_set_emits fmt values value :
  String.eqb fmt "$H%d" = false -> emits P (mapped_set fmt values value).
Proof.
  intros Hfmt. unfold mapped_set. emits_auto. apply P_other. exact Hfmt.
Qed.

Lemma set_field_setpoint_emits value : emits P (set_field_setpoint value).
Proof. unfold set_field_setpoint. emits_auto. now apply P_other. Qed.

Lemma disable_persistent_mode_emits self fuel :
  P (Wrote (SetInt "$H%d" 1)) = true ->
  emits P (disable_persistent_mode self fuel).
Proof.
  intros Hon.
  unfold disable_persistent_mode, sweep_status, field_setpoint,
    switch_heater_status, set_activity, set_switch_heater_status,
    wait_for_idle_default.
  repeat first [ apply emits_mapped_get | apply field_emits
               | apply set_field_setpoint_emits | apply wait_for_idle_emits
               | apply mapped_set_emits; reflexivity | emits_step ]; auto.
Qed.

Lemma enable_persistent_mode_emits self fuel :
  P (Wrote (SetInt "$H%d" 0)) = true ->
  emits P (enable_persistent_mode self fuel).
Proof.
  intros Hoff.
  unfold enable_persistent_mode, sweep_status, switch_heater_status,
    set_activity, set_switch_heater_status, wait_for_idle_default.
  repeat first [ apply emits_mapped_get | apply wait_for_idle_emits
               | apply mapped_set_emits; reflexivity | emits_step ]; auto.
Qed.

Lemma set_field_emits self fuel target rate pmc :
  (pmc = true -> P (Wrote (SetInt "$H%d" 1)) = true) ->
  (pmc = true -> Qeq_bool target 0 = false ->
   P (Wrote (SetInt "$H%d" 0)) = true) ->
  emits P (set_field self fuel target rate pmc).
Proof.
  intros Hon Hoff.
  unfold set_field, switch_heater_status, set_sweep_rate, set_activity,
    wait_for_idle_default.
  apply emits_bind; [apply field_emits|]. intros f.
  destruct (Qeq_bool f target); [apply emits_ret|].
  apply emits_bind; [emits_auto; auto|]. intros h.
  apply emits_bind.
  { destruct pmc.
    - emits_auto. apply disable_persistent_mode_emits; auto.
    - emits_auto. }
  intros _. apply emits_bind.
  { emits_auto. now apply P_other. }
  intros _. apply emits_bind.
  { destruct (Qeq_bool target 0).
    - now apply mapped_set_emits.
    - apply emits_bind; [now apply mapped_set_emits|]. intros _.
      apply set_field_setpoint_emits. }
  intros _. apply emits_bind; [apply wait_for_idle_emits|]. intros _.
  apply emits_bind; [emits_auto; auto|]. intros _.
  destruct pmc; simpl; [|apply emits_ret].
  destruct (Qeq_bool target 0) eqn:Hz; simpl; [apply emits_ret|].
  apply enable_persistent_mode_emits; auto.
Qed.

Lemma train_loop_emits self fuel scheme : emits P (train_loop self fuel scheme).
Proof.
  induction scheme as [|[fld rate] rest IH]; simpl; [apply emits_ret|].
  apply emits_bind; [|intros _; exact IH].
  apply set_field_emits; discriminate.
Qed.

Lemma train_magnet_emits self fuel scheme :
  P (Wrote (SetInt "$H%d" 1)) = true ->
  emits P (train_magnet self fuel scheme).
Proof.
  intros Hon. unfold train_magnet.
  apply emits_bind; [apply train_loop_emits|]. intros _.
  apply set_field_emits; [auto|]. intros _ Hz. discriminate Hz.
Qed.

End Emission.

Lemma field_quiet : emits quiet field.
Proof. now apply field_emits. Qed.

Lemma sweep_status_quiet : emits quiet sweep_status.
Proof. now apply emits_mapped_get. Qed.

Lemma wait_for_idle_quiet fuel delay max_errors max_wait_time should_stop :
  emits quiet (wait_for_idle fuel delay max_errors max_wait_time should_stop).
Proof. now apply wait_for_idle_emits. Qed.

(** ** The field sequencer: calls that send nothing *)

Lemma field_writes w f w1 :
  field w = (Returned f, w1) -> writes (trace w1) = writes (trace w).
Proof.
  intros H. apply extends_writes. generalize (field_quiet w). now rewrite H.
Qed.

Lemma switch_heater_status_writes w h w1 :
  switch_heater_status w = (Returned h, w1) ->
  writes (trace w1) = writes (trace w).
Proof.
  intros H. apply extends_writes.
  assert (Q : emits quiet switch_heater_status)
    by (now apply emits_query_int).
  generalize (Q w). now rewrite H.
Qed.

Lemma sweep_status_writes w s w1 :
  sweep_status w = (Returned s, w1) -> writes (trace w1) = writes (trace w).
Proof.
  intros H. apply extends_writes. generalize (sweep_status_quiet w).
  now rewrite H.
Qed.

Lemma writes_app l1 l2 : writes (l1 ++ l2) = writes l1 ++ writes l2.
Proof. apply filter_app. Qed.

(** C4: when the target equals the effective field that the [field] property
    reads (the persistent field with the heater off, the demand field
    otherwise), [set_field] returns at once, whatever the sweep rate and
    [persistent_mode_control]: the world is the one the read left, and the
    log holds no set command that was not there before the call. *)
Theorem set_field_at_target_is_noop self fuel t rate pmc w f w1 :
  field w = (Returned f, w1) ->
  Qeq_bool f t = true ->
  set_field self fuel t rate pmc w = (Returned tt, w1) /\
  writes (trace w1) = writes (trace w).
Proof.
  intros Hf Heq. split.
  - unfold set_field. rewrite (bind_returned _ _ _ _ _ Hf), Heq. reflexivity.
  - now apply field_writes with f.
Qed.

(** C1 (amended): with the switch heater reported off (status 0 or 2) and a
    target that differs from the effective field, [set_field] with
    [persistent_mode_control=False] raises the [MagnetError] of the
    persistent-mode gate, having sent no set command: only the queries of the
    effective field and of the heater status were made. *)
Theorem set_field_persistent_mode_not_allowed self fuel t rate w f w1 h w2 :
  field w = (Returned f, w1) ->
  Qeq_bool f t = false ->
  switch_heater_status w1 = (Returned h, w2) ->
  h = 0 \/ h = 2 ->
  set_field self fuel t rate false w = (Raised PersistentModeNotAllowed, w2) /\
  is_ValueError PersistentModeNotAllowed = true /\
  writes (trace w2) = writes (trace w).
Proof.
  intros Hf Hne Hh Hoff. split; [|split].
  - unfold set_field. rewrite (bind_returned _ _ _ _ _ Hf), Hne.
    rewrite (bind_returned _ _ _ _ _ Hh).
    destruct Hoff; subst h; reflexivity.
  - reflexivity.
  - rewrite (switch_heater_status_writes _ _ _ Hh). now apply field_writes with f.
Qed.

(** C9: [disable_control] reads the effective field first.  If it is not 0
    the call raises a [MagnetError] and no set command has been sent.  If it
    is 0 the heater-off command and the clamp command are sent, in that
    order, and then [control_mode] is set to "LU", which sends the code 2
    once the validator has let "LU" through. *)
Theorem disable_control_only_at_zero_field w f w1 :
  field w = (Returned f, w1) ->
  writes (trace w1) = writes (trace w) /\
  (Qeq_bool f 0 = false ->
     disable_control w = (Raised FieldNotZero, w1) /\
     is_ValueError FieldNotZero = true) /\
  (Qeq_bool f 0 = true ->
     let w3 := do_write (SetInt "$A%d" 4) (do_write (SetInt "$H%d" 0) w1) in
     disable_control w = set_control_mode "LU" w3 /\
     (strict_discrete_set E "LU" control_mode_values = inr "LU" ->
      disable_control w = (Returned tt, do_write (SetInt "$C%d" 2) w3))).
Proof.
  intros Hf. split; [now apply field_writes with f|]. split.
  - intros Hz. split; [|reflexivity].
    unfold disable_control. rewrite (bind_returned _ _ _ _ _ Hf), Hz.
    reflexivity.
  - intros Hz w3.
    assert (Hd : disable_control w = set_control_mode "LU" w3).
    { unfold disable_control. rewrite (bind_returned _ _ _ _ _ Hf), Hz.
      reflexivity. }
    split; [exact Hd|]. intros Hv. rewrite Hd.
    unfold set_control_mode. rewrite Hv. reflexivity.
Qed.

(** ** The persistent-mode controller *)

(** C2: with the sweep status read as "at rest", [enable_persistent_mode]
    branches on the heater status it reads next.  Off (0 or 2): it returns
    and has sent no set command.  On (1): it sends Activity=Hold, then the
    heater-off command, sleeps the settle delay, sends Activity=ToZero, and
    what remains of the call is one [wait_for_idle] with the default
    arguments, which sends nothing; so the set commands of the whole call are
    exactly these three, in this order.  Any other code: it raises
    [SwitchHeaterStatusError] with that code. *)
Theorem enable_persistent_mode_sequence self fuel w w1 h w2 :
  sweep_status w = (Returned "at rest", w1) ->
  switch_heater_status w1 = (Returned h, w2) ->
  writes (trace w2) = writes (trace w) /\
  (h = 0 \/ h = 2 -> enable_persistent_mode self fuel w = (Returned tt, w2)) /\
  (h = 1 ->
     let w6 :=
       do_write (SetInt "$A%d" 2)
         (do_sleep (SWITCH_HEATER_DELAY self)
            (do_write (SetInt "$H%d" 0)
               (do_write (SetInt "$A%d" 0) w2))) in
     enable_persistent_mode self fuel w = wait_for_idle_default fuel w6 /\
     trace w6 =
       trace w2 ++ [Wrote (SetInt "$A%d" 0); Wrote (SetInt "$H%d" 0);
                    Slept (SWITCH_HEATER_DELAY self); Wrote (SetInt "$A%d" 2)] /\
     writes (trace (snd (enable_persistent_mode self fuel w))) =
       writes (trace w) ++ [Wrote (SetInt "$A%d" 0); Wrote (SetInt "$H%d" 0);
                            Wrote (SetInt "$A%d" 2)]) /\
  (h <> 0 -> h <> 1 -> h <> 2 ->
     enable_persistent_mode self fuel w =
       (Raised (SwitchHeaterStatusError h), w2)).
Proof.
  intros Hs Hh.
  assert (Hw : writes (trace w2) = writes (trace w)).
  { rewrite (switch_heater_status_writes _ _ _ Hh).
    now apply sweep_status_writes with "at rest". }
  assert (Hstart : forall k : Z -> M unit,
    bind sweep_status (fun s =>
      if negb (String.eqb s "at rest") then raise NotAtRest_enable
      else bind switch_heater_status k) w = k h w2).
  { intros k. rewrite (bind_returned _ _ _ _ _ Hs). simpl.
    now rewrite (bind_returned _ _ _ _ _ Hh). }
  split; [exact Hw|]. split; [|split].
  - intros Hoff. unfold enable_persistent_mode. rewrite Hstart.
    destruct Hoff; subst h; reflexivity.
  - intros -> w6.
    assert (Hrun : enable_persistent_mode self fuel w =
                   wait_for_idle_default fuel w6).
    { unfold enable_persistent_mode. rewrite Hstart. reflexivity. }
    split; [exact Hrun|]. split.
    + subst w6. simpl. rewrite <- !app_assoc. reflexivity.
    + rewrite Hrun.
      unfold wait_for_idle_default.
      rewrite (extends_writes _ _ (wait_for_idle_quiet fuel _ _ _ _ w6)).
      subst w6. simpl. rewrite <- !app_assoc, writes_app, Hw. reflexivity.
  - intros H0 H1 H2. unfold enable_persistent_mode. rewrite Hstart.
    apply Z.eqb_neq in H0, H1, H2. now rewrite H0, H1, H2.
Qed.

Lemma field_range_kept {A} (m : M A) w :
  emits (fun _ => true) m -> FIELD_RANGE (snd (m w)) = FIELD_RANGE w.
Proof. intros H. apply (H w). Qed.

Lemma field_FIELD_RANGE w f w1 :
  field w = (Returned f, w1) -> FIELD_RANGE w1 = FIELD_RANGE w.
Proof.
  intros H.
  assert (K : emits (fun _ => true) field) by (now apply field_emits).
  generalize (field_range_kept _ w K). now rewrite H.
Qed.

Lemma switch_heater_status_FIELD_RANGE w h w1 :
  switch_heater_status w = (Returned h, w1) -> FIELD_RANGE w1 = FIELD_RANGE w.
Proof.
  intros H.
  assert (K : emits (fun _ => true) switch_heater_status)
    by (now apply emits_query_int).
  generalize (field_range_kept _ w K). now rewrite H.
Qed.

Lemma sweep_status_FIELD_RANGE' w r w' :
  sweep_status w = (r, w') -> FIELD_RANGE w' = FIELD_RANGE w.
Proof.
  intros H.
  assert (K : emits (fun _ => true) sweep_status)
    by (now apply emits_mapped_get).
  generalize (field_range_kept _ w K). now rewrite H.
Qed.


(** The bounds of a list are bounds of its members. *)
Lemma Qmin_list_le l lo :
  Qmin_list l = Some lo -> forall x, In x l -> (lo <= x)%Q.
Proof.
  revert lo. induction l as [|y l IH]; intros lo Hlo x Hx; [destruct Hx|].
  simpl in Hlo. destruct (Qmin_list l) as [m|] eqn:Hm.
  - injection Hlo as <-. destruct (Qle_bool y m) eqn:Hym.
    + apply Qle_bool_iff in Hym. destruct Hx as [<- | Hx]; [apply Qle_refl|].
      eapply Qle_trans; [exact Hym | now apply IH].
    + assert (m <= y)%Q.
      { destruct (Qlt_le_dec y m) as [Hlt|Hle]; [|exact Hle].
        apply Qlt_le_weak, Qle_bool_iff in Hlt. congruence. }
      destruct Hx as [<- | Hx]; [assumption | now apply IH].
  - injection Hlo as <-. destruct l; [|simpl in Hm; destruct (Qmin_list l); discriminate].
    destruct Hx as [<- | []]. apply Qle_refl.
Qed.

Lemma Qmax_list_ge l hi :
  Qmax_list l = Some hi -> forall x, In x l -> (x <= hi)%Q.
Proof.
  revert hi. induction l as [|y l IH]; intros hi Hhi x Hx; [destruct Hx|].
  simpl in Hhi. destruct (Qmax_list l) as [m|] eqn:Hm.
  - injection Hhi as <-. destruct (Qle_bool m y) eqn:Hym.
    + apply Qle_bool_iff in Hym. destruct Hx as [<- | Hx]; [apply Qle_refl|].
      eapply Qle_trans; [now apply IH | exact Hym].
    + assert (y <= m)%Q.
      { destruct (Qlt_le_dec m y) as [Hlt|Hle]; [|exact Hle].
        apply Qlt_le_weak, Qle_bool_iff in Hlt. congruence. }
      destruct Hx as [<- | Hx]; [assumption | now apply IH].
  - injection Hhi as <-. destruct l; [|simpl in Hm; destruct (Qmax_list l); discriminate].
    destruct Hx as [<- | []]. apply Qle_refl.
Qed.

Lemma Qmin_le_Qmax values lo hi :
  Qmin_list values = Some lo -> Qmax_list values = Some hi -> (lo <= hi)%Q.
Proof.
  intros Hlo Hhi. destruct values as [|y l]; [discriminate|].
  eapply Qle_trans.
  - apply (Qmin_list_le _ _ Hlo y). now left.
  - apply (Qmax_list_ge _ _ Hhi y). now left.
Qed.

(** What a validator that truncates makes of a value, case by case. *)
Lemma truncates_cases validator value values lo hi :
  truncates validator ->
  Qmin_list values = Some lo -> Qmax_list values = Some hi ->
  ((hi < value)%Q -> validator value values = inr hi) /\
  ((value < lo)%Q -> validator value values = inr lo) /\
  ((lo <= value <= hi)%Q -> validator value values = inr value).
Proof.
  intros Htr Hlo Hhi. rewrite (Htr value values lo hi Hlo Hhi).
  pose proof (Qmin_le_Qmax _ _ _ Hlo Hhi) as Hb.
  assert (Hle : forall a b, Qle_bool a b = false -> (b < a)%Q).
  { intros a b H. apply Qnot_le_lt. intros Hc. apply Qle_bool_iff in Hc.
    congruence. }
  unfold Qgtb. split; [|split].
  - intros H. destruct (Qle_bool value hi) eqn:H1.
    + apply Qle_bool_iff in H1. lra.
    + now rewrite andb_false_r.
  - intros H. destruct (Qle_bool lo value) eqn:H1.
    + apply Qle_bool_iff in H1. lra.
    + simpl. destruct (Qle_bool value hi) eqn:H2; [reflexivity|].
      apply Hle in H2. lra.
  - intros [H1 H2]. apply Qle_bool_iff in H1, H2. now rewrite H1, H2.
Qed.

Lemma truncating_truncates : truncates truncating.
Proof.
  intros value values lo hi Hlo Hhi. unfold truncating. rewrite Hlo, Hhi.
  destruct (Qle_bool lo value && Qle_bool value hi); [reflexivity|].
  now destruct (Qgtb value hi).
Qed.

(** What remains of [disable_persistent_mode] once the heater is found off:
    the sequence that brings the supply back to the magnet's field and opens
    the switch. *)
Lemma disable_persistent_mode_unfold self fuel w w1 f w2 sp w3 :
  sweep_status w = (Returned "at rest", w1) ->
  field w1 = (Returned f, w2) ->
  field_setpoint w2 = (Returned sp, w3) ->
  disable_persistent_mode self fuel w =
    ((if negb (Qeq_bool f sp) then f' <- field ;; set_field_setpoint f'
      else ret tt) ;;;
     switch_status <- switch_heater_status ;;
     if switch_status =? 1 then ret tt
     else if (switch_status =? 0) || (switch_status =? 2) then
       set_activity "to setpoint" ;;;
       wait_for_idle_default fuel ;;;
       set_activity "hold" ;;;
       set_switch_heater_status 1 ;;;
       sleep (SWITCH_HEATER_DELAY self)
     else raise (SwitchHeaterStatusError switch_status)) w3.
Proof.
  intros Hs Hf Hsp. unfold disable_persistent_mode.
  rewrite (bind_returned _ _ _ _ _ Hs). simpl.
  rewrite (bind_returned _ _ _ _ _ Hf).
  rewrite (bind_returned _ _ _ _ _ Hsp). reflexivity.
Qed.

Lemma field_setpoint_writes w sp w1 :
  field_setpoint w = (Returned sp, w1) ->
  writes (trace w1) = writes (trace w).
Proof.
  intros H. apply extends_writes.
  assert (Q : emits quiet field_setpoint) by (now apply emits_query_float).
  generalize (Q w). now rewrite H.
Qed.


(** ** The field sequencer: training, ranges *)

(** C5 (amended): [train_magnet] calls [set_field(field, rate,
    persistent_mode_control=False)] for each pair in the given order and then
    [set_field(0)] with the default [persistent_mode_control=True].  The
    training steps send no switch-heater command at all, and the whole call,
    finished or not, never sends the command that turns the heater off: the
    closing [set_field(0)] does not call [enable_persistent_mode]. *)
Theorem train_magnet_never_turns_heater_off self fuel scheme :
  (forall w,
     train_magnet self fuel [] w = set_field self fuel 0%Q None true w) /\
  (forall fld rate rest w,
     train_magnet self fuel ((fld, rate) :: rest) w =
     (set_field self fuel fld (Some rate) false ;;;
      train_magnet self fuel rest) w) /\
  emits (fun e => negb (is_heater_write e)) (train_loop self fuel scheme) /\
  emits (fun e => negb (is_heater_off e)) (train_magnet self fuel scheme).
Proof.
  split; [reflexivity|]. split; [|split].
  - intros fld rate rest w. unfold train_magnet. simpl.
    apply bind_assoc.
  - apply train_loop_emits; try reflexivity.
    intros c Hc. now rewrite Hc.
  - apply train_magnet_emits; try reflexivity.
    intros [fmt z | fmt q] Hc; simpl in *; [now rewrite Hc | reflexivity].
Qed.

(** C6 (amended): in demand mode, for a nonzero target that differs from the
    effective field, [set_field] sends the sweep-rate command (when a rate is
    given) and the Activity=ToSetpoint command before the target is
    validated against the field range.  If the validator raises, [set_field]
    fails with that error after these commands were sent.  If it returns a
    value, the set-point command carries that value, and the call goes on.
    With a validator that truncates, a target above the range is replaced by
    the upper bound and a target below it by the lower bound, the nearest
    bound in both cases, and a target within the range is sent as it is: no
    set-point outside the range is transmitted, and a target outside it is
    replaced, not rejected. *)
Theorem set_field_validates_after_activity self fuel t rate (pmc : bool)
  w f w1 w2 :
  field w = (Returned f, w1) ->
  Qeq_bool f t = false ->
  switch_heater_status w1 = (Returned 1, w2) ->
  Qeq_bool t 0 = false ->
  let w3 :=
    do_write (SetInt "$A%d" 1)
      (match rate with
       | Some r => do_write (SetFloat "$T%f" r) w2
       | None => w2
       end) in
  let sent := fun v =>
    (wait_for_idle_default fuel ;;;
     sleep 10%Q ;;;
     if pmc then enable_persistent_mode self fuel else ret tt)
      (do_write (SetFloat "$J%f" v) w3) in
  (forall e,
     truncated_range E t (FIELD_RANGE w) = inl e ->
     set_field self fuel t rate pmc w = (Raised e, w3)) /\
  (forall v,
     truncated_range E t (FIELD_RANGE w) = inr v ->
     set_field self fuel t rate pmc w = sent v) /\
  (truncates (truncated_range E) ->
   forall lo hi,
     Qmin_list (FIELD_RANGE w) = Some lo ->
     Qmax_list (FIELD_RANGE w) = Some hi ->
     ((hi < t)%Q -> set_field self fuel t rate pmc w = sent hi) /\
     ((t < lo)%Q -> set_field self fuel t rate pmc w = sent lo) /\
     ((lo <= t <= hi)%Q -> set_field self fuel t rate pmc w = sent t)).
Proof.
  intros Hf Hne Hh Hz w3 sent.
  assert (HR : FIELD_RANGE w3 = FIELD_RANGE w).
  { subst w3. destruct rate; simpl;
      now rewrite (switch_heater_status_FIELD_RANGE _ _ _ Hh),
                  (field_FIELD_RANGE _ _ _ Hf). }
  assert (Hrun : set_field self fuel t rate pmc w =
    (set_field_setpoint t ;;;
     wait_for_idle_default fuel ;;;
     sleep 10%Q ;;;
     if pmc && negb (Qeq_bool t 0) then enable_persistent_mode self fuel
     else ret tt) w3).
  { unfold set_field. rewrite (bind_returned _ _ _ _ _ Hf), Hne.
    rewrite (bind_returned _ _ _ _ _ Hh). simpl. rewrite Hz.
    subst w3. destruct rate; reflexivity. }
  rewrite Hz, andb_true_r in Hrun.
  assert (Hsent : forall v,
            truncated_range E t (FIELD_RANGE w) = inr v ->
            set_field self fuel t rate pmc w = sent v).
  { intros v Hv. rewrite Hrun.
    assert (Hset : set_field_setpoint t w3 =
                   (Returned tt, do_write (SetFloat "$J%f" v) w3)).
    { unfold set_field_setpoint.
      rewrite (bind_returned _ _ _ _ _
                 (eq_refl : peek FIELD_RANGE w3 = (Returned (FIELD_RANGE w3), w3))).
      rewrite HR, Hv. reflexivity. }
    now rewrite (bind_returned _ _ _ _ _ Hset). }
  split; [|split; [exact Hsent|]].
  - intros e He. rewrite Hrun.
    assert (Hset : set_field_setpoint t w3 = (Raised e, w3)).
    { unfold set_field_setpoint.
      rewrite (bind_returned _ _ _ _ _
                 (eq_refl : peek FIELD_RANGE w3 = (Returned (FIELD_RANGE w3), w3))).
      rewrite HR, He. reflexivity. }
    now rewrite (bind_raised _ _ _ _ _ Hset).
  - intros Htr lo hi Hlo Hhi.
    destruct (truncates_cases _ t _ lo hi Htr Hlo Hhi) as [Habove [Hbelow Hin]].
    split; [|split]; intros H; apply Hsent; auto.
Qed.

(** Where the two configuration values live.  The settle delay is an
    attribute of the instance, fixed by its constructor.  The field range is
    not: [field_setpoint] validates against the one class-level list as it is
    at the time of the call; no call on a constructed instance changes that
    list, nor does a constructor called without [field_range]; a constructor
    called with a [field_range] overwrites it in place, for every instance of
    the process. *)
Theorem field_range_is_class_level :
  (forall v w,
     set_field_setpoint v w =
     match truncated_range E v (FIELD_RANGE w) with
     | inl e => (Raised e, w)
     | inr v' => (Returned tt, do_write (SetFloat "$J%f" v') w)
     end) /\
  (forall self fuel op w,
     FIELD_RANGE (snd (perform self fuel op w)) = FIELD_RANGE w) /\
  (forall d w, FIELD_RANGE (attach d w) = FIELD_RANGE w) /\
  (forall clear_buffer delay w,
     FIELD_RANGE (snd (__init__ clear_buffer delay None w)) = FIELD_RANGE w) /\
  (forall clear_buffer delay q w,
     FIELD_RANGE (snd (__init__ clear_buffer delay (Some (RangeNumber q)) w)) =
     [(- q)%Q; q]) /\
  (forall clear_buffer delay l w,
     FIELD_RANGE (snd (__init__ clear_buffer delay (Some (RangeSeq l)) w)) = l) /\
  (forall clear_buffer delay range w,
     fst (__init__ clear_buffer delay range w) =
     Returned {| inst_SWITCH_HEATER_DELAY := delay |}).
Proof.
  split.
  { intros v w. unfold set_field_setpoint, bind, peek.
    destruct (truncated_range E v (FIELD_RANGE w)); reflexivity. }
  split.
  { intros self fuel op w. apply field_range_kept.
    destruct op; simpl;
      try (unfold set_control_mode, set_switch_heater_status,
             set_current_setpoint, set_sweep_rate, set_activity, mapped_set;
           emits_auto; reflexivity).
    - now apply set_field_setpoint_emits.
    - apply emits_bind; [now apply field_emits | intros; apply emits_ret].
    - unfold enable_control, set_control_mode, activity, set_activity,
        mapped_set, set_switch_heater_status.
      repeat first [ now apply emits_mapped_get | now apply field_emits
                   | emits_step ]; reflexivity.
    - unfold disable_control, set_control_mode, set_activity, mapped_set,
        set_switch_heater_status.
      repeat first [ now apply field_emits | emits_step ]; reflexivity.
    - now apply enable_persistent_mode_emits.
    - now apply disable_persistent_mode_emits.
    - now apply wait_for_idle_emits.
    - now apply set_field_emits.
    - now apply train_magnet_emits. }
  split; [reflexivity|].
  split; [intros [] delay w; reflexivity|].
  split; [intros [] delay q w; reflexivity|].
  split; [intros [] delay l w; reflexivity|].
  intros clear_buffer delay range w. reflexivity.
Qed.

(** ** The idle-wait poller *)

Lemma sweep_status_log w r w' :
  sweep_status w = (r, w') ->
  trace w' = trace w ++ [Asked "X"] /\ slept w' = slept w.
Proof.
  unfold sweep_status, mapped_get, bind, query_int, lift.
  destruct (ask_int (chan E) "X" 11 (dev w)) as [[e|z] d]; unfold raise, ret.
  - intros [= <- <-]. now split.
  - destruct (dict_inverse sweep_status_values z); intros [= <- <-]; now split.
Qed.

Lemma polls_snoc n delay :
  polls n delay ++ [Slept delay; Asked "X"] = polls (S n) delay.
Proof.
  induction n as [|n IH]; [reflexivity|].
  change (polls (S n) delay ++ [Slept delay; Asked "X"])
    with (Slept delay :: Asked "X" ::
          (polls n delay ++ [Slept delay; Asked "X"])).
  rewrite IH. reflexivity.
Qed.

(** One turn of the loop, once the status query has returned or raised a
    [ValueError]. *)
Lemma wait_loop_turn fuel delay max_errors max_wait_time should_stop
  error_ct start_time status w r w' :
  try_ValueError sweep_status (do_sleep delay w) = (Returned r, w') ->
  wait_loop (S fuel) delay max_errors max_wait_time should_stop
    error_ct start_time status w =
  let status' := match r with inr s => Some s | inl _ => status end in
  let error_ct' := match r with inr _ => error_ct | inl _ => error_ct + 1 end in
  if negb (not_at_rest status') then (Returned tt, w')
  else if should_stop w' then (Returned tt, w')
  else if match max_errors with Some m => error_ct' >? m | None => false end
  then (Raised TooManyErrors, w')
  else if match max_wait_time with
          | Some mw => Qgtb (clock w' - start_time) mw
          | None => false
          end
  then (Raised Timeout, w')
  else wait_loop fuel delay max_errors max_wait_time should_stop
         error_ct' start_time status' w'.
Proof.
  intros Hq. simpl wait_loop.
  rewrite (bind_returned _ _ _ _ _
             (eq_refl : sleep delay w = (Returned tt, do_sleep delay w))).
  rewrite (bind_returned _ _ _ _ _ Hq). cbv zeta.
  destruct r as [e|s]; [destruct status as [s0|]|];
    unfold not_at_rest, time, bind, peek, ret, raise; cbv beta iota;
    try match goal with
        | |- context [String.eqb ?s "at rest"] =>
            destruct (String.eqb s "at rest")
        end;
    cbn [negb]; try reflexivity;
    (destruct (should_stop w'); [reflexivity|]);
    (destruct max_errors as [m|];
       [match goal with
        | |- context [?c >? m] => destruct (c >? m)
        end; [reflexivity|]|]);
    (destruct max_wait_time as [mw|];
       [destruct (Qgtb (clock w' - start_time) mw)|]; reflexivity).
Qed.

(** A run of status queries that all raise a [ValueError] while the stop
    predicate stays false: the loop counts them and raises when the count
    passes [m]. *)
Lemma wait_loop_counts_errors delay m should_stop (ws : nat -> World)
  start_time :
  forall (k : nat) (i : nat) (error_ct : Z) (fuel : nat) status,
    not_at_rest status = true ->
    error_ct + Z.of_nat k = m ->
    (k < fuel)%nat ->
    (forall j, (i <= j <= i + k)%nat ->
       exists e,
         sweep_status (do_sleep delay (ws j)) = (Raised e, ws (S j)) /\
         is_ValueError e = true /\ should_stop (ws (S j)) = false) ->
    wait_loop fuel delay (Some m) None should_stop error_ct start_time status
      (ws i) = (Raised TooManyErrors, ws (S (i + k))).
Proof.
  induction k as [|k IH]; intros i error_ct fuel status Hst Hct Hfuel Hfail.
  - destruct fuel as [|fuel]; [lia|].
    destruct (Hfail i ltac:(lia)) as [e [Hq [He Hss]]].
    rewrite (wait_loop_turn _ _ _ _ _ _ _ _ _ _ _ (try_caught _ _ _ _ Hq He)).
    cbv zeta. rewrite Hst, Hss. simpl negb. cbv iota.
    replace (error_ct + 1 >? m) with true by (symmetry; apply Z.gtb_lt; lia).
    now rewrite Nat.add_0_r.
  - destruct fuel as [|fuel]; [lia|].
    destruct (Hfail i ltac:(lia)) as [e [Hq [He Hss]]].
    rewrite (wait_loop_turn _ _ _ _ _ _ _ _ _ _ _ (try_caught _ _ _ _ Hq He)).
    cbv zeta. rewrite Hst, Hss. simpl negb. cbv iota.
    replace (error_ct + 1 >? m) with false
      by (symmetry; rewrite Z.gtb_ltb; apply Z.ltb_ge; lia).
    rewrite (IH (S i) (error_ct + 1) fuel status Hst); [|lia|lia|].
    + now rewrite Nat.add_succ_r.
    + intros j Hj. apply Hfail. lia.
Qed.




Lemma errors_upto_mono failed i k :
  (i <= k)%nat -> errors_upto failed i <= errors_upto failed k.
Proof.
  induction 1 as [|k Hk IH]; [lia|].
  simpl. destruct (failed k); lia.
Qed.

Section Polling.

Variables (delay : Q) (max_errors : option Z) (max_wait_time : option Q).
Variable should_stop : World -> bool.
Variable ws : nat -> World.
Variable failed : nat -> bool.
Variable start_time : Q.
Variable k : nat.

(** The first [k] polls leave the loop running: each finds the magnet not at
    rest or fails with a [ValueError], nobody asks to stop, and the time
    limit has not passed. *)
Hypothesis busy :
  forall j, (j < k)%nat ->
    should_stop (ws (S j)) = false /\
    (if failed j
     then exists e,
            sweep_status (do_sleep delay (ws j)) = (Raised e, ws (S j)) /\
            is_ValueError e = true
     else exists s,
            sweep_status (do_sleep delay (ws j)) = (Returned s, ws (S j)) /\
            String.eqb s "at rest" = false) /\
    match max_wait_time with
    | Some mw => (clock (ws (S j)) - start_time <= mw)%Q
    | None => True
    end.

Hypothesis budget :
  match max_errors with
  | Some m => errors_upto failed k <= m
  | None => True
  end.

Lemma wait_loop_keeps_polling :
  forall d i fuel status,
    (i + d = k)%nat ->
    not_at_rest status = true ->
    exists status',
      not_at_rest status' = true /\
      wait_loop (d + fuel) delay max_errors max_wait_time should_stop
        (errors_upto failed i) start_time status (ws i) =
      wait_loop fuel delay max_errors max_wait_time should_stop
        (errors_upto failed k) start_time status' (ws k).
Proof.
  induction d as [|d IH]; intros i fuel status Hi Hst.
  - exists status. split; [exact Hst|]. replace i with k by lia. reflexivity.
  - destruct (busy i ltac:(lia)) as [Hss [Hq Ht]].
    assert (Hgo : forall r,
      try_ValueError sweep_status (do_sleep delay (ws i)) =
        (Returned r, ws (S i)) ->
      not_at_rest (match r with inr s => Some s | inl _ => status end) = true ->
      match r with
      | inr _ => errors_upto failed i
      | inl _ => errors_upto failed i + 1
      end = errors_upto failed (S i) ->
      exists status',
        not_at_rest status' = true /\
        wait_loop (S d + fuel) delay max_errors max_wait_time should_stop
          (errors_upto failed i) start_time status (ws i) =
        wait_loop fuel delay max_errors max_wait_time should_stop
          (errors_upto failed k) start_time status' (ws k)).
    { intros r Hr Hst' Hct.
      destruct (IH (S i) fuel _ ltac:(lia) Hst') as [status' [Hs' Heq]].
      exists status'. split; [exact Hs'|]. rewrite <- Heq.
      change (S d + fuel)%nat with (S (d + fuel)).
      rewrite (wait_loop_turn _ _ _ _ _ _ _ _ _ _ _ Hr). cbv zeta.
      rewrite Hst', Hss, Hct. cbn [negb].
      replace (match max_errors with
               | Some m => errors_upto failed (S i) >? m
               | None => false
               end) with false.
      2:{ destruct max_errors as [m|]; [|reflexivity].
          symmetry. rewrite Z.gtb_ltb. apply Z.ltb_ge.
          pose proof (errors_upto_mono failed (S i) k ltac:(lia)). lia. }
      replace (match max_wait_time with
               | Some mw => Qgtb (clock (ws (S i)) - start_time) mw
               | None => false
               end) with false.
      2:{ destruct max_wait_time as [mw|]; [|reflexivity].
          unfold Qgtb. apply Qle_bool_iff in Ht. now rewrite Ht. }
      reflexivity. }
    destruct (failed i) eqn:Hf.
    + destruct Hq as [e [Hq He]].
      apply (Hgo (inl e) (try_caught _ _ _ _ Hq He) Hst).
      simpl. now rewrite Hf.
    + destruct Hq as [s [Hq Hs]].
      apply (Hgo (inr s) (try_returned _ _ _ _ Hq)).
      * simpl. now rewrite Hs.
      * simpl. rewrite Hf. lia.
Qed.

End Polling.



Lemma sweep_status_not_running w w' : sweep_status w <> (Running, w').
Proof.
  unfold sweep_status, mapped_get, bind, query_int, lift.
  destruct (ask_int (chan E) "X" 11 (dev w)) as [[e|z] d]; unfold raise, ret;
    [discriminate|].
  destruct (dict_inverse sweep_status_values z); discriminate.
Qed.

(** * Further properties of the driver *)

(** ** What [wait_for_idle] does and does not do *)

Lemma after_polls_S delay w n :
  after_polls delay w (S n) =
  after_polls delay (snd (sweep_status (do_sleep delay w))) n.
Proof.
  unfold after_polls. induction n as [|n IH]; [reflexivity|].
  simpl in *. now rewrite <- IH.
Qed.

Lemma after_polls_log delay w n :
  trace (after_polls delay w n) = trace w ++ polls n delay /\
  (slept (after_polls delay w n) == slept w + intervals n delay)%Q /\
  FIELD_RANGE (after_polls delay w n) = FIELD_RANGE w.
Proof.
  revert w. induction n as [|n IH]; intros w.
  - simpl. rewrite app_nil_r. repeat split. ring.
  - rewrite after_polls_S.
    destruct (sweep_status (do_sleep delay w)) as [r w'] eqn:Hq.
    pose proof (sweep_status_FIELD_RANGE' _ _ _ Hq) as HR.
    apply sweep_status_log in Hq as [Ht Hn]. simpl snd.
    destruct (IH w') as [IH1 [IH2 IH3]]. split; [|split].
    + rewrite IH1, Ht. simpl. rewrite <- !app_assoc. reflexivity.
    + rewrite IH2, Hn. simpl. ring.
    + now rewrite IH3, HR.
Qed.

(** One turn of the loop either ends the call in the world the poll left,
    or hands that world to the next turn. *)
Lemma wait_loop_turn_cases fuel delay max_errors max_wait_time should_stop
  error_ct start_time status w :
  let w' := snd (sweep_status (do_sleep delay w)) in
  let r := wait_loop (S fuel) delay max_errors max_wait_time should_stop
             error_ct start_time status w in
  (snd r = w' /\
   fst r <> Running /\
   (forall e, fst r = Raised e ->
      (e = TooManyErrors /\ max_errors <> None) \/ is_ValueError e = false)) \/
  (exists error_ct' status',
     r = wait_loop fuel delay max_errors max_wait_time should_stop
           error_ct' start_time status' w').
Proof.
  cbv zeta.
  assert (Hret : forall w0 : World,
    snd (@Returned unit tt, w0) = w0 /\
    fst (@Returned unit tt, w0) <> Running /\
    (forall e, fst (@Returned unit tt, w0) = Raised e ->
       (e = TooManyErrors /\ max_errors <> None) \/ is_ValueError e = false)).
  { intros w0. simpl. repeat split; [discriminate | intros e H; discriminate H]. }
  assert (Hmany : forall (w0 : World) m, max_errors = Some m ->
    snd (@Raised unit TooManyErrors, w0) = w0 /\
    fst (@Raised unit TooManyErrors, w0) <> Running /\
    (forall e, fst (@Raised unit TooManyErrors, w0) = Raised e ->
       (e = TooManyErrors /\ max_errors <> None) \/ is_ValueError e = false)).
  { intros w0 m Hm. simpl. repeat split; [discriminate|].
    intros e H. injection H as <-. left. split; [reflexivity|].
    rewrite Hm. discriminate. }
  assert (Hother : forall (w0 : World) e0, is_ValueError e0 = false ->
    snd (@Raised unit e0, w0) = w0 /\
    fst (@Raised unit e0, w0) <> Running /\
    (forall e, fst (@Raised unit e0, w0) = Raised e ->
       (e = TooManyErrors /\ max_errors <> None) \/ is_ValueError e = false)).
  { intros w0 e0 He0. simpl. repeat split; [discriminate|].
    intros e H. injection H as <-. now right. }
  destruct (sweep_status (do_sleep delay w)) as [[s|e|] w'] eqn:Hq;
    cbn [snd].
  - rewrite (wait_loop_turn _ _ _ _ _ _ _ _ _ _ _ (try_returned _ _ _ _ Hq)).
    cbv zeta.
    destruct (negb (not_at_rest (Some s))); [left; apply Hret|].
    destruct (should_stop w'); [left; apply Hret|].
    destruct max_errors as [m|] eqn:Hm.
    + destruct (error_ct >? m); [left; now apply Hmany with m|].
      destruct max_wait_time as [mw|];
        [destruct (Qgtb (clock w' - start_time) mw)|].
      * left. now apply Hother.
      * right. eauto.
      * right. eauto.
    + destruct max_wait_time as [mw|];
        [destruct (Qgtb (clock w' - start_time) mw)|].
      * left. now apply Hother.
      * right. eauto.
      * right. eauto.
  - destruct (is_ValueError e) eqn:He.
    + rewrite (wait_loop_turn _ _ _ _ _ _ _ _ _ _ _ (try_caught _ _ _ _ Hq He)).
      cbv zeta.
      destruct (negb (not_at_rest status)); [left; apply Hret|].
      destruct (should_stop w'); [left; apply Hret|].
      destruct max_errors as [m|] eqn:Hm.
      * destruct (error_ct + 1 >? m); [left; now apply Hmany with m|].
        destruct max_wait_time as [mw|];
          [destruct (Qgtb (clock w' - start_time) mw)|].
        -- left. now apply Hother.
        -- right. eauto.
        -- right. eauto.
      * destruct max_wait_time as [mw|];
          [destruct (Qgtb (clock w' - start_time) mw)|].
        -- left. now apply Hother.
        -- right. eauto.
        -- right. eauto.
    + left. simpl wait_loop.
      rewrite (bind_returned _ _ _ _ _
                 (eq_refl : sleep delay w = (Returned tt, do_sleep delay w))).
      rewrite (bind_raised _ _ _ _ _ (try_uncaught _ _ _ _ Hq He)).
      now apply Hother.
  - exfalso. exact (sweep_status_not_running _ _ Hq).
Qed.

Lemma wait_loop_run delay max_errors max_wait_time should_stop start_time :
  forall fuel error_ct status w,
    let r := wait_loop fuel delay max_errors max_wait_time should_stop
               error_ct start_time status w in
    (exists n, (n <= fuel)%nat /\
               snd r = after_polls delay w n /\
               (fst r = Running -> n = fuel) /\
               (fuel <> 0%nat -> n <> 0%nat)) /\
    (forall e, fst r = Raised e ->
       (e = TooManyErrors /\ max_errors <> None) \/ is_ValueError e = false).
Proof.
  induction fuel as [|fuel IH]; intros error_ct status w; cbv zeta.
  - split; [|intros e [=]]. exists 0%nat. repeat split; auto.
  - destruct (wait_loop_turn_cases fuel delay max_errors max_wait_time
                should_stop error_ct start_time status w)
      as [[Hw [Hr He]] | [c' [st' Hnext]]].
    + split; [|exact He]. exists 1%nat. repeat split.
      * lia.
      * exact Hw.
      * intros Hrun. now destruct Hr.
      * discriminate.
    + rewrite Hnext.
      destruct (IH c' st' (snd (sweep_status (do_sleep delay w))))
        as [[n [Hn [Hw [Hrun Hpos]]]] He].
      split; [|exact He]. exists (S n). repeat split.
      * lia.
      * now rewrite Hw, after_polls_S.
      * intros Hr. now rewrite (Hrun Hr).
      * discriminate.
Qed.

(** X1: all [wait_for_idle] ever does is poll.  Whatever the device, the
    arguments and the outcome (returned, raised, or still looping when the
    fuel is spent), the world it leaves is the world after [n] polls, each a
    sleep of [delay] followed by one status query: the log has grown by
    exactly these, no set command among them, the driver has slept [n]
    delays and the class-level field range is the same list.  A call that
    runs at all makes at least one poll, and one that is still looping has
    made as many polls as it had fuel. *)
Theorem wait_for_idle_only_polls fuel delay max_errors max_wait_time
  should_stop w :
  let r := wait_for_idle fuel delay max_errors max_wait_time should_stop w in
  exists n,
    (n <= fuel)%nat /\
    snd r = after_polls delay w n /\
    trace (snd r) = trace w ++ polls n delay /\
    writes (trace (snd r)) = writes (trace w) /\
    (slept (snd r) == slept w + intervals n delay)%Q /\
    FIELD_RANGE (snd r) = FIELD_RANGE w /\
    (fst r = Running -> n = fuel) /\
    (fuel <> 0%nat -> n <> 0%nat).
Proof.
  cbv zeta. unfold wait_for_idle, time.
  rewrite (bind_returned _ _ _ _ _
             (eq_refl : peek clock w = (Returned (clock w), w))).
  destruct (wait_loop_run delay max_errors max_wait_time should_stop (clock w)
              fuel 0 None w) as [[n [Hn [Hw [Hrun Hpos]]]] _].
  exists n. destruct (after_polls_log delay w n) as [Ht [Hc HR]].
  rewrite Hw. repeat split; try assumption.
  apply extends_writes.
  generalize (wait_for_idle_quiet fuel delay max_errors max_wait_time
                should_stop w).
  unfold wait_for_idle, time.
  rewrite (bind_returned _ _ _ _ _
             (eq_refl : peek clock w = (Returned (clock w), w))).
  now rewrite Hw.
Qed.

(** X2: no [ValueError] of a status query ever leaves [wait_for_idle].  If
    the call raises an exception that is a [ValueError], it is the
    [MagnetError] for too many errors and a [max_errors] was given; so with
    [max_errors=None] the call raises no [ValueError] at all.  Everything
    else it raises is not a [ValueError]: the [TimeoutError], or what a
    status query raised. *)
Theorem wait_for_idle_raises fuel delay max_errors max_wait_time
  should_stop w e w' :
  wait_for_idle fuel delay max_errors max_wait_time should_stop w =
    (Raised e, w') ->
  (is_ValueError e = true -> e = TooManyErrors /\ max_errors <> None) /\
  (max_errors = None -> is_ValueError e = false).
Proof.
  unfold wait_for_idle, time.
  rewrite (bind_returned _ _ _ _ _
             (eq_refl : peek clock w = (Returned (clock w), w))).
  intros Hrun.
  destruct (wait_loop_run delay max_errors max_wait_time should_stop (clock w)
              fuel 0 None w) as [_ He].
  specialize (He e). rewrite Hrun in He. specialize (He eq_refl).
  split.
  - intros Hv. destruct He as [He | He]; [exact He | congruence].
  - intros Hnone. destruct He as [[_ He] | He]; [contradiction | exact He].
Qed.

Section Tolerance.

Variables (delay : Q) (max_errors : option Z) (max_wait_time : option Q).
Variable should_stop : World -> bool.
Variable ws : nat -> World.
Variable failed : nat -> bool.
Variable k : nat.

(** The first [k] polls: each finds the magnet not at rest or fails with a
    [ValueError], nobody asks to stop, and the time limit has not passed. *)
Hypothesis busy :
  forall j, (j < k)%nat ->
    should_stop (ws (S j)) = false /\
    (if failed j
     then exists e,
            sweep_status (do_sleep delay (ws j)) = (Raised e, ws (S j)) /\
            is_ValueError e = true
     else exists s,
            sweep_status (do_sleep delay (ws j)) = (Returned s, ws (S j)) /\
            String.eqb s "at rest" = false) /\
    match max_wait_time with
    | Some mw => (clock (ws (S j)) - clock (ws 0%nat) <= mw)%Q
    | None => True
    end.

Hypothesis budget :
  match max_errors with
  | Some m => errors_upto failed k <= m
  | None => True
  end.

Hypothesis idle :
  sweep_status (do_sleep delay (ws k)) = (Returned "at rest", ws (S k)).

Lemma wait_loop_tolerates :
  forall d i fuel status,
    (i + d = k)%nat ->
    not_at_rest status = true ->
    (d < fuel)%nat ->
    wait_loop fuel delay max_errors max_wait_time should_stop
      (errors_upto failed i) (clock (ws 0%nat)) status (ws i) =
    (Returned tt, ws (S k)).
Proof.
  induction d as [|d IH]; intros i fuel status Hi Hst Hfuel;
    (destruct fuel as [|fuel]; [lia|]).
  - replace i with k by lia.
    now rewrite (wait_loop_turn _ _ _ _ _ _ _ _ _ _ _
                   (try_returned _ _ _ _ idle)).
  - destruct (busy i ltac:(lia)) as [Hss [Hq Ht]].
    assert (Hgo : forall r,
      try_ValueError sweep_status (do_sleep delay (ws i)) =
        (Returned r, ws (S i)) ->
      not_at_rest (match r with inr s => Some s | inl _ => status end) = true ->
      match r with
      | inr _ => errors_upto failed i
      | inl _ => errors_upto failed i + 1
      end = errors_upto failed (S i) ->
      wait_loop (S fuel) delay max_errors max_wait_time should_stop
        (errors_upto failed i) (clock (ws 0%nat)) status (ws i) =
      (Returned tt, ws (S k))).
    { intros r Hr Hst' Hct.
      rewrite (wait_loop_turn _ _ _ _ _ _ _ _ _ _ _ Hr). cbv zeta.
      rewrite Hst', Hss, Hct. cbn [negb].
      replace (match max_errors with
               | Some m => errors_upto failed (S i) >? m
               | None => false
               end) with false.
      2:{ destruct max_errors as [m|]; [|reflexivity].
          symmetry. rewrite Z.gtb_ltb. apply Z.ltb_ge.
          pose proof (errors_upto_mono failed (S i) k ltac:(lia)). lia. }
      replace (match max_wait_time with
               | Some mw => Qgtb (clock (ws (S i)) - clock (ws 0%nat)) mw
               | None => false
               end) with false.
      2:{ destruct max_wait_time as [mw|]; [|reflexivity].
          unfold Qgtb. apply Qle_bool_iff in Ht. now rewrite Ht. }
      apply IH; [lia | exact Hst' | lia]. }
    destruct (failed i) eqn:Hf.
    + destruct Hq as [e [Hq He]].
      apply (Hgo (inl e) (try_caught _ _ _ _ Hq He) Hst).
      simpl. now rewrite Hf.
    + destruct Hq as [s [Hq Hs]].
      apply (Hgo (inr s) (try_returned _ _ _ _ Hq)).
      * simpl. now rewrite Hs.
      * simpl. rewrite Hf. lia.
Qed.

End Tolerance.

(** X3: [wait_for_idle] returns at the first poll that reads "at rest", and
    what comes before does not matter as long as it stays within the limits:
    polls that find the magnet busy, polls that fail with a [ValueError] if
    no more than [max_errors] of them (any number with [max_errors=None]),
    each over before [max_wait_time] has passed.  The time limit is not
    applied to the poll that reads "at rest". *)
Theorem wait_for_idle_returns_when_at_rest delay max_errors max_wait_time
  should_stop (ws : nat -> World) (failed : nat -> bool) k fuel :
  (forall j, (j < k)%nat ->
     should_stop (ws (S j)) = false /\
     (if failed j
      then exists e,
             sweep_status (do_sleep delay (ws j)) = (Raised e, ws (S j)) /\
             is_ValueError e = true
      else exists s,
             sweep_status (do_sleep delay (ws j)) = (Returned s, ws (S j)) /\
             String.eqb s "at rest" = false) /\
     match max_wait_time with
     | Some mw => (clock (ws (S j)) - clock (ws 0%nat) <= mw)%Q
     | None => True
     end) ->
  match max_errors with
  | Some m => errors_upto failed k <= m
  | None => True
  end ->
  sweep_status (do_sleep delay (ws k)) = (Returned "at rest", ws (S k)) ->
  (k < fuel)%nat ->
  wait_for_idle fuel delay max_errors max_wait_time should_stop (ws 0%nat) =
    (Returned tt, ws (S k)).
Proof.
  intros Hbusy Hbudget Hidle Hfuel. unfold wait_for_idle, time.
  rewrite (bind_returned _ _ _ _ _
             (eq_refl : peek clock (ws 0%nat) =
                        (Returned (clock (ws 0%nat)), ws 0%nat))).
  apply (wait_loop_tolerates delay max_errors max_wait_time should_stop ws
           failed k Hbusy Hbudget Hidle k 0%nat fuel None);
    [reflexivity | reflexivity | exact Hfuel].
Qed.


(** X27: failed status queries are counted.  When each of the first
    [m + 1] status queries raises a [ValueError] (which a reply that does
    not decode is) and the stop predicate is false, [wait_for_idle] with
    [max_errors = m] and no [max_wait_time] raises the [MagnetError] for too
    many errors right after query [m + 1]: with [m + 1] polls in the log and
    no further query, whatever a later query would have answered. *)
Theorem wait_for_idle_too_many_errors delay m should_stop
  (ws : nat -> World) fuel :
  0 <= m ->
  (forall j, (j <= Z.to_nat m)%nat ->
     exists e,
       sweep_status (do_sleep delay (ws j)) = (Raised e, ws (S j)) /\
       is_ValueError e = true /\ should_stop (ws (S j)) = false) ->
  (Z.to_nat m < fuel)%nat ->
  wait_for_idle fuel delay (Some m) None should_stop (ws 0%nat) =
    (Raised TooManyErrors, ws (S (Z.to_nat m))) /\
  is_ValueError TooManyErrors = true /\
  trace (ws (S (Z.to_nat m))) =
    trace (ws 0%nat) ++ polls (S (Z.to_nat m)) delay.
Proof.
  intros Hm Hfail Hfuel. split; [|split].
  - unfold wait_for_idle, time.
    rewrite (bind_returned _ _ _ _ _
               (eq_refl : peek clock (ws 0%nat) =
                          (Returned (clock (ws 0%nat)), ws 0%nat))).
    rewrite (wait_loop_counts_errors delay m should_stop ws _
               (Z.to_nat m) 0%nat 0 fuel None).
    + reflexivity.
    + reflexivity.
    + lia.
    + exact Hfuel.
    + intros j Hj. apply Hfail. lia.
  - reflexivity.
  - assert (Hlog : forall n, (n <= S (Z.to_nat m))%nat ->
              trace (ws n) = trace (ws 0%nat) ++ polls n delay).
    { induction n as [|n IHn]; intros Hn.
      - simpl. now rewrite app_nil_r.
      - destruct (Hfail n ltac:(lia)) as [e [Hq _]].
        apply sweep_status_log in Hq as [Hq _]. rewrite Hq. simpl trace.
        rewrite IHn by lia. rewrite <- !app_assoc. f_equal.
        apply polls_snoc. }
    now apply Hlog.
Qed.

(** X28: only a [ValueError] is counted.  An exception of a status query
    that is no [ValueError] ends [wait_for_idle] at once with that exception,
    at whichever poll it comes: after any number of polls that found the
    magnet busy or failed with a [ValueError] within the limits, and
    whatever [max_errors] still allows. *)
Theorem wait_for_idle_lets_other_errors_through delay max_errors
  max_wait_time should_stop (ws : nat -> World) (failed : nat -> bool)
  k fuel e :
  (forall j, (j < k)%nat ->
     should_stop (ws (S j)) = false /\
     (if failed j
      then exists e',
             sweep_status (do_sleep delay (ws j)) = (Raised e', ws (S j)) /\
             is_ValueError e' = true
      else exists s,
             sweep_status (do_sleep delay (ws j)) = (Returned s, ws (S j)) /\
             String.eqb s "at rest" = false) /\
     match max_wait_time with
     | Some mw => (clock (ws (S j)) - clock (ws 0%nat) <= mw)%Q
     | None => True
     end) ->
  match max_errors with
  | Some m => errors_upto failed k <= m
  | None => True
  end ->
  sweep_status (do_sleep delay (ws k)) = (Raised e, ws (S k)) ->
  is_ValueError e = false ->
  (k < fuel)%nat ->
  wait_for_idle fuel delay max_errors max_wait_time should_stop (ws 0%nat) =
    (Raised e, ws (S k)).
Proof.
  intros Hbusy Hbudget Hq He Hfuel.
  destruct (Nat.le_exists_sub (S k) fuel Hfuel) as [f [-> _]].
  replace (f + S k)%nat with (k + S f)%nat by lia.
  unfold wait_for_idle, time.
  rewrite (bind_returned _ _ _ _ _
             (eq_refl : peek clock (ws 0%nat) =
                        (Returned (clock (ws 0%nat)), ws 0%nat))).
  destruct (wait_loop_keeps_polling delay max_errors max_wait_time should_stop
              ws failed (clock (ws 0%nat)) k Hbusy Hbudget
              k 0%nat (S f) None eq_refl eq_refl) as [status' [_ Heq]].
  change (errors_upto failed 0) with 0 in Heq. rewrite Heq.
  simpl wait_loop.
  rewrite (bind_returned _ _ _ _ _
             (eq_refl : sleep delay (ws k) =
                        (Returned tt, do_sleep delay (ws k)))).
  now rewrite (bind_raised _ _ _ _ _ (try_uncaught _ _ _ _ Hq He)).
Qed.

(** ** The commands each method may send *)

Lemma wait_for_idle_default_emits P fuel :
  (forall cmd, P (Asked cmd) = true) -> (forall d, P (Slept d) = true) ->
  emits P (wait_for_idle_default fuel).
Proof. intros HA HS. now apply wait_for_idle_emits. Qed.

Lemma enable_persistent_mode_alphabet self fuel :
  emits enable_persistent_event (enable_persistent_mode self fuel).
Proof.
  unfold enable_persistent_mode, sweep_status, switch_heater_status,
    set_activity, set_switch_heater_status, mapped_set. simpl dict_get.
  repeat first [ now apply emits_mapped_get
               | now apply wait_for_idle_default_emits
               | emits_step ]; reflexivity.
Qed.

Lemma disable_persistent_mode_alphabet self fuel :
  emits disable_persistent_event (disable_persistent_mode self fuel).
Proof.
  unfold disable_persistent_mode, sweep_status, field_setpoint,
    switch_heater_status, set_activity, set_switch_heater_status, mapped_set,
    set_field_setpoint.
  simpl dict_get.
  repeat first [ now apply emits_mapped_get | now apply field_emits
               | now apply wait_for_idle_default_emits
               | emits_step ]; reflexivity.
Qed.

(** X5: the mode controller only moves the switch heater one way.  Whatever
    the device answers and however the call ends, [enable_persistent_mode]
    sends nothing but Activity=Hold, Activity=ToZero and heater off, and
    [disable_persistent_mode] nothing but a set-point, Activity=ToSetpoint,
    Activity=Hold and heater on: neither touches the sweep rate or the
    control mode, neither clamps, and the class-level field range is left
    alone. *)
Theorem persistent_mode_commands self fuel :
  emits enable_persistent_event (enable_persistent_mode self fuel) /\
  emits disable_persistent_event (disable_persistent_mode self fuel).
Proof.
  split; [apply enable_persistent_mode_alphabet
         | apply disable_persistent_mode_alphabet].
Qed.

(** X6: [enable_control] and [disable_control] never sleep: the heater
    command of [disable_control] is followed by the clamp at once, without
    the settle delay.  [enable_control] sends nothing but a control mode,
    Activity=Hold and heater on; [disable_control] nothing but heater off,
    Activity=Clamp and a control mode. *)
Theorem control_commands :
  emits enable_control_event enable_control /\
  emits disable_control_event disable_control.
Proof.
  split.
  - unfold enable_control, set_control_mode, activity, set_activity,
      set_switch_heater_status, mapped_set. simpl (dict_get activity_values _).
    apply emits_bind.
    { apply emits_bind; [apply emits_lift|]. intros v.
      destruct (dict_get control_mode_values v) as [code|] eqn:Hv;
        [|apply emits_raise].
      apply emits_write. unfold control_mode_values in Hv. simpl in Hv.
      repeat match type of Hv with
             | (if ?b then _ else _) = _ => destruct b
             end; try discriminate; injection Hv as <-; reflexivity. }
    intros _.
    repeat first [ now apply emits_mapped_get | now apply field_emits
                 | emits_step ]; reflexivity.
  - unfold disable_control, set_control_mode, set_activity,
      set_switch_heater_status, mapped_set. simpl (dict_get activity_values _).
    apply emits_bind; [now apply field_emits|]. intros f.
    destruct (negb (Qeq_bool f 0)); [apply emits_raise|].
    apply emits_bind; [now apply emits_write|]. intros _.
    apply emits_bind; [now apply emits_write|]. intros _.
    apply emits_bind; [apply emits_lift|]. intros v.
    destruct (dict_get control_mode_values v) as [code|] eqn:Hv;
      [|apply emits_raise].
    apply emits_write. unfold control_mode_values in Hv. simpl in Hv.
    repeat match type of Hv with
           | (if ?b then _ else _) = _ => destruct b
           end; try discriminate; injection Hv as <-; reflexivity.
Qed.

Lemma set_field_alphabet self fuel target rate (pmc : bool) :
  emits (if pmc then set_field_event else ramp_event)
    (set_field self fuel target rate pmc).
Proof.
  assert (Hr : forall e, ramp_event e = true -> set_field_event e = true).
  { intros e He. unfold set_field_event. now rewrite He. }
  assert (He : forall e, enable_persistent_event e = true ->
                         set_field_event e = true).
  { intros e H. unfold set_field_event. rewrite H. now destruct (ramp_event e). }
  assert (Hd : forall e, disable_persistent_event e = true ->
                         set_field_event e = true).
  { intros e H. unfold set_field_event. rewrite H.
    now destruct (ramp_event e), (enable_persistent_event e). }
  assert (Hramp : forall A (m : M A), emits ramp_event m ->
                    emits (if pmc then set_field_event else ramp_event) m).
  { intros A m Hm. destruct pmc; [|exact Hm].
    now apply emits_weaken with ramp_event. }
  unfold set_field.
  apply emits_bind; [apply Hramp; now apply field_emits|]. intros f.
  destruct (Qeq_bool f target); [apply emits_ret|].
  apply emits_bind;
    [apply Hramp; unfold switch_heater_status; now apply emits_query_int|].
  intros h. apply emits_bind.
  { destruct (h =? 1); [apply emits_ret|].
    destruct ((h =? 0) || (h =? 2)); [|apply emits_ret].
    destruct pmc; [|apply emits_raise].
    apply emits_weaken with disable_persistent_event; [exact Hd|].
    apply disable_persistent_mode_alphabet. }
  intros _. apply emits_bind.
  { apply Hramp. destruct rate; [|apply emits_ret].
    unfold set_sweep_rate. now apply emits_write. }
  intros _. apply emits_bind.
  { apply Hramp. unfold set_activity, mapped_set, set_field_setpoint.
    simpl dict_get. emits_auto; reflexivity. }
  intros _. apply emits_bind;
    [apply Hramp; now apply wait_for_idle_default_emits|].
  intros _. apply emits_bind; [apply Hramp; now apply emits_sleep|].
  intros _. destruct pmc; simpl andb; [|apply emits_ret].
  destruct (negb (Qeq_bool target 0)); [|apply emits_ret].
  apply emits_weaken with enable_persistent_event; [exact He|].
  apply enable_persistent_mode_alphabet.
Qed.

(** X7: the field sequencer never clamps and never changes the control mode.
    [set_field] without control of the persistent mode, and so every training
    step, sends nothing but a sweep rate, a set-point, Activity=ToSetpoint and
    Activity=ToZero; with control of the persistent mode it adds only what
    the mode controller sends, and so does [train_magnet] as a whole. *)
Theorem field_sequencer_commands self fuel target rate scheme :
  emits ramp_event (set_field self fuel target rate false) /\
  emits set_field_event (set_field self fuel target rate true) /\
  emits ramp_event (train_loop self fuel scheme) /\
  emits set_field_event (train_magnet self fuel scheme).
Proof.
  assert (Hloop : emits ramp_event (train_loop self fuel scheme)).
  { induction scheme as [|[fld r] rest IH]; simpl; [apply emits_ret|].
    apply emits_bind; [|intros _; exact IH].
    apply (set_field_alphabet self fuel fld (Some r) false). }
  split; [apply (set_field_alphabet self fuel target rate false)|].
  split; [apply (set_field_alphabet self fuel target rate true)|].
  split; [exact Hloop|].
  unfold train_magnet. apply emits_bind.
  - apply emits_weaken with ramp_event; [|exact Hloop].
    intros e He. unfold set_field_event. now rewrite He.
  - intros _. apply (set_field_alphabet self fuel 0%Q None true).
Qed.

(** ** Sequences of the remaining methods *)

Lemma emits_quiet_writes {A} (m : M A) w :
  emits quiet m -> writes (trace (snd (m w))) = writes (trace w).
Proof. intros H. apply extends_writes, H. Qed.

Lemma query_float_log cmd w r w' :
  query_float cmd w = (r, w') ->
  trace w' = trace w ++ [Asked cmd] /\ slept w' = slept w.
Proof.
  unfold query_float, lift.
  destruct (ask_float (chan E) cmd (dev w)) as [[e|z] d]; unfold raise, ret;
    intros [= <- <-]; now split.
Qed.

Lemma query_int_log cmd k w r w' :
  query_int cmd k w = (r, w') ->
  trace w' = trace w ++ [Asked cmd] /\ slept w' = slept w.
Proof.
  unfold query_int, lift.
  destruct (ask_int (chan E) cmd k (dev w)) as [[e|z] d]; unfold raise, ret;
    intros [= <- <-]; now split.
Qed.

(** X8: the effective field is read with two queries and nothing else.
    [field] asks for the heater status and then for exactly one field: the
    persistent field for status 0 or 2, the demand field for every other
    status, an unexpected one included, for which it does not raise.  If
    the status query itself raises, [field] raises the same after that one
    query.  The call does not sleep. *)
Theorem field_reads_one_field w :
  (forall h w1,
     switch_heater_status w = (Returned h, w1) ->
     let off := (h =? 0) || (h =? 2) in
     field w = (if off then persistent_field else demand_field) w1 /\
     trace (snd (field w)) =
       trace w ++ [Asked "X"; Asked (if off then "R18" else "R7")]) /\
  (forall e w1,
     switch_heater_status w = (Raised e, w1) ->
     field w = (Raised e, w1) /\ trace w1 = trace w ++ [Asked "X"]) /\
  slept (snd (field w)) = slept w /\
  writes (trace (snd (field w))) = writes (trace w).
Proof.
  split; [|split; [|split]].
  - intros h w1 Hh off.
    assert (Hrun : field w =
                   (if off then persistent_field else demand_field) w1).
    { unfold field. rewrite (bind_returned _ _ _ _ _ Hh). subst off.
      destruct ((h =? 0) || (h =? 2)); [reflexivity|].
      now destruct (h =? 1). }
    split; [exact Hrun|]. rewrite Hrun.
    apply query_int_log in Hh as [Ht _].
    destruct off; unfold persistent_field, demand_field.
    + destruct (query_float "R18" w1) as [r w2] eqn:Hq.
      apply query_float_log in Hq as [Hq _]. simpl.
      now rewrite Hq, Ht, <- app_assoc.
    + destruct (query_float "R7" w1) as [r w2] eqn:Hq.
      apply query_float_log in Hq as [Hq _]. simpl.
      now rewrite Hq, Ht, <- app_assoc.
  - intros e w1 He. split.
    + unfold field. now rewrite (bind_raised _ _ _ _ _ He).
    + now apply query_int_log in He as [Ht _].
  - unfold field, bind.
    destruct (switch_heater_status w) as [[h|e|] w1] eqn:Hh;
      apply query_int_log in Hh as [_ Hn]; simpl; try exact Hn.
    destruct ((h =? 0) || (h =? 2));
      [|destruct (h =? 1)];
      unfold persistent_field, demand_field;
      match goal with
      | |- slept (snd (query_float ?c w1)) = _ =>
          destruct (query_float c w1) as [r w2] eqn:Hq;
          apply query_float_log in Hq as [_ Hq]; simpl; congruence
      end.
  - apply emits_quiet_writes, field_quiet.
Qed.

Lemma activity_quiet : emits quiet activity.
Proof. now apply emits_mapped_get. Qed.

(** X9: [enable_control] in full.  Once the validator has let "RU" through,
    the control mode command with code 3 is sent first; Activity=Hold is
    sent only if the activity then reads "clamp"; the switch heater is
    turned on only if the effective field then reads exactly 0.  These are
    all the set commands of the call, in this order, and it returns. *)
Theorem enable_control_sequence w a w1 f w3 :
  strict_discrete_set E "RU" control_mode_values = inr "RU" ->
  activity (do_write (SetInt "$C%d" 3) w) = (Returned a, w1) ->
  field (if String.eqb a "clamp" then do_write (SetInt "$A%d" 0) w1 else w1)
    = (Returned f, w3) ->
  enable_control w =
    (Returned tt,
     if Qeq_bool f 0 then do_write (SetInt "$H%d" 1) w3 else w3) /\
  writes (trace (snd (enable_control w))) =
    writes (trace w) ++ [Wrote (SetInt "$C%d" 3)]
    ++ (if String.eqb a "clamp" then [Wrote (SetInt "$A%d" 0)] else [])
    ++ (if Qeq_bool f 0 then [Wrote (SetInt "$H%d" 1)] else []).
Proof.
  intros Hv Ha Hf.
  assert (Hrun : enable_control w =
    (Returned tt,
     if Qeq_bool f 0 then do_write (SetInt "$H%d" 1) w3 else w3)).
  { unfold enable_control.
    assert (Hc : set_control_mode "RU" w =
                 (Returned tt, do_write (SetInt "$C%d" 3) w)).
    { unfold set_control_mode. now rewrite Hv. }
    rewrite (bind_returned _ _ _ _ _ Hc).
    rewrite (bind_returned _ _ _ _ _ Ha).
    destruct (String.eqb a "clamp").
    - rewrite (bind_returned _ _ _ _ _
                 (eq_refl : set_activity "hold" w1 =
                            (Returned tt, do_write (SetInt "$A%d" 0) w1))).
      rewrite (bind_returned _ _ _ _ _ Hf). now destruct (Qeq_bool f 0).
    - rewrite (bind_returned _ _ _ _ _
                 (eq_refl : ret tt w1 = (Returned tt, w1))).
      rewrite (bind_returned _ _ _ _ _ Hf). now destruct (Qeq_bool f 0). }
  split; [exact Hrun|]. rewrite Hrun.
  assert (Hw3 : writes (trace w3) =
    writes (trace w) ++ [Wrote (SetInt "$C%d" 3)]
    ++ (if String.eqb a "clamp" then [Wrote (SetInt "$A%d" 0)] else [])).
  { rewrite (field_writes _ _ _ Hf).
    assert (Hw1 : writes (trace w1) =
                  writes (trace w) ++ [Wrote (SetInt "$C%d" 3)]).
    { generalize (emits_quiet_writes activity
                    (do_write (SetInt "$C%d" 3) w) activity_quiet).
      rewrite Ha. simpl. now rewrite writes_app. }
    destruct (String.eqb a "clamp"); simpl.
    - rewrite writes_app, Hw1, <- app_assoc. reflexivity.
    - now rewrite Hw1. }
  destruct (Qeq_bool f 0); simpl snd.
  - simpl trace. rewrite writes_app, Hw3, <- !app_assoc. reflexivity.
  - rewrite Hw3, app_nil_r. reflexivity.
Qed.

(** What [set_field] does once the persistent-mode gate is behind it. *)
Lemma set_field_ramp self fuel t rate pmc w f w1 h w2 :
  field w = (Returned f, w1) ->
  Qeq_bool f t = false ->
  switch_heater_status w1 = (Returned h, w2) ->
  h <> 0 -> h <> 2 ->
  set_field self fuel t rate pmc w =
  ((match rate with
    | Some r => set_sweep_rate r
    | None => ret tt
    end) ;;;
   (if Qeq_bool t 0 then set_activity "to zero"
    else set_activity "to setpoint" ;;; set_field_setpoint t) ;;;
   wait_for_idle_default fuel ;;;
   sleep 10%Q ;;;
   if pmc && negb (Qeq_bool t 0) then enable_persistent_mode self fuel
   else ret tt) w2.
Proof.
  intros Hf Hne Hh H0 H2. unfold set_field.
  rewrite (bind_returned _ _ _ _ _ Hf), Hne.
  rewrite (bind_returned _ _ _ _ _ Hh).
  apply Z.eqb_neq in H0, H2. rewrite H0, H2. simpl orb.
  now destruct (h =? 1).
Qed.

(** X10: only the heater codes 0 and 2 stop [set_field] at the
    persistent-mode gate; every other code, an unexpected one included, is
    taken for demand mode.  For a nonzero target that differs from the
    effective field and that the validator lets through, the call sends the
    sweep rate if one is given, Activity=ToSetpoint and the set-point, waits
    for idle and sleeps ten seconds, without [disable_persistent_mode].
    Without control of the persistent mode it then returns, whatever the
    heater code was.  With it, the call ends as [enable_persistent_mode]
    does, and that is where a heater code that is still unexpected is
    reported, as [SwitchHeaterStatusError]: after the field has been ramped,
    with these commands sent. *)
Theorem set_field_ramps_unless_heater_off self fuel t rate w f w1 h w2 v w5 :
  field w = (Returned f, w1) ->
  Qeq_bool f t = false ->
  switch_heater_status w1 = (Returned h, w2) ->
  h <> 0 -> h <> 2 ->
  Qeq_bool t 0 = false ->
  truncated_range E t (FIELD_RANGE w) = inr v ->
  let w4 :=
    do_write (SetFloat "$J%f" v)
      (do_write (SetInt "$A%d" 1)
         (match rate with
          | Some r => do_write (SetFloat "$T%f" r) w2
          | None => w2
          end)) in
  wait_for_idle_default fuel w4 = (Returned tt, w5) ->
  let w6 := do_sleep 10%Q w5 in
  set_field self fuel t rate false w = (Returned tt, w6) /\
  set_field self fuel t rate true w = enable_persistent_mode self fuel w6 /\
  (forall w7 h' w8,
     sweep_status w6 = (Returned "at rest", w7) ->
     switch_heater_status w7 = (Returned h', w8) ->
     h' <> 0 -> h' <> 1 -> h' <> 2 ->
     set_field self fuel t rate true w =
       (Raised (SwitchHeaterStatusError h'), w8) /\
     writes (trace w8) = writes (trace w6)) /\
  writes (trace w6) =
    writes (trace w) ++
    match rate with
    | Some r => [Wrote (SetFloat "$T%f" r)]
    | None => []
    end ++ [Wrote (SetInt "$A%d" 1); Wrote (SetFloat "$J%f" v)].
Proof.
  intros Hf Hne Hh H0 H2 Hz Hv w4 Hwait w6.
  set (w3 := do_write (SetInt "$A%d" 1)
               (match rate with
                | Some r => do_write (SetFloat "$T%f" r) w2
                | None => w2
                end)).
  assert (HR : FIELD_RANGE w3 = FIELD_RANGE w).
  { subst w3. destruct rate; simpl;
      now rewrite (switch_heater_status_FIELD_RANGE _ _ _ Hh),
                  (field_FIELD_RANGE _ _ _ Hf). }
  assert (Hset : set_field_setpoint t w3 = (Returned tt, w4)).
  { unfold set_field_setpoint.
    rewrite (bind_returned _ _ _ _ _
               (eq_refl : peek FIELD_RANGE w3 = (Returned (FIELD_RANGE w3), w3))).
    rewrite HR, Hv. reflexivity. }
  assert (Hrun : forall pmc : bool,
    set_field self fuel t rate pmc w =
    (if pmc then enable_persistent_mode self fuel else ret tt) w6).
  { intros pmc.
    assert (Hramp : set_field self fuel t rate pmc w =
      (set_field_setpoint t ;;;
       wait_for_idle_default fuel ;;;
       sleep 10%Q ;;;
       if pmc && negb (Qeq_bool t 0) then enable_persistent_mode self fuel
       else ret tt) w3).
    { rewrite (set_field_ramp self fuel t rate pmc _ _ _ _ _ Hf Hne Hh H0 H2).
      rewrite Hz. subst w3. destruct rate; reflexivity. }
    rewrite Hramp, Hz, andb_true_r.
    rewrite (bind_returned _ _ _ _ _ Hset).
    rewrite (bind_returned _ _ _ _ _ Hwait).
    now rewrite (bind_returned _ _ _ _ _
                   (eq_refl : sleep 10%Q w5 = (Returned tt, w6))). }
  split; [exact (Hrun false)|]. split; [exact (Hrun true)|]. split.
  - intros w7 h' w8 Hs Hh' H0' H1' H2'. split.
    + rewrite (Hrun true). unfold enable_persistent_mode.
      rewrite (bind_returned _ _ _ _ _ Hs). simpl.
      rewrite (bind_returned _ _ _ _ _ Hh').
      apply Z.eqb_neq in H0', H1', H2'. now rewrite H0', H1', H2'.
    + rewrite (switch_heater_status_writes _ _ _ Hh').
      now apply sweep_status_writes with "at rest".
  - assert (Hw2 : writes (trace w2) = writes (trace w)).
    { rewrite (switch_heater_status_writes _ _ _ Hh).
      now apply field_writes with f. }
    assert (Hw5 : writes (trace w5) = writes (trace w4)).
    { generalize (emits_quiet_writes (wait_for_idle_default fuel) w4
                    (wait_for_idle_quiet fuel _ _ _ _)).
      now rewrite Hwait. }
    subst w6. simpl trace. rewrite writes_app, Hw5. subst w4.
    destruct rate; simpl; rewrite ?writes_app, Hw2; simpl;
      rewrite <- ?app_assoc; reflexivity.
Qed.

(** X11: a ramp to zero never touches the set-point.  With the heater not
    reported off and a target of 0 that differs from the effective field,
    [set_field] sends the sweep rate if one is given and Activity=ToZero,
    waits, sleeps ten seconds and returns what the wait returned; it sends no
    set-point and, even with control of the persistent mode, does not call
    [enable_persistent_mode]: these one or two commands are all it sends. *)
Theorem set_field_to_zero self fuel t rate pmc w f w1 h w2 :
  field w = (Returned f, w1) ->
  Qeq_bool f t = false ->
  switch_heater_status w1 = (Returned h, w2) ->
  h <> 0 -> h <> 2 ->
  Qeq_bool t 0 = true ->
  let w3 :=
    do_write (SetInt "$A%d" 2)
      (match rate with
       | Some r => do_write (SetFloat "$T%f" r) w2
       | None => w2
       end) in
  set_field self fuel t rate pmc w =
    (wait_for_idle_default fuel ;;; sleep 10%Q ;;; ret tt) w3 /\
  writes (trace (snd (set_field self fuel t rate pmc w))) =
    writes (trace w) ++
    match rate with
    | Some r => [Wrote (SetFloat "$T%f" r)]
    | None => []
    end ++ [Wrote (SetInt "$A%d" 2)].
Proof.
  intros Hf Hne Hh H0 H2 Hz w3.
  assert (Hrun : set_field self fuel t rate pmc w =
                 (wait_for_idle_default fuel ;;; sleep 10%Q ;;; ret tt) w3).
  { rewrite (set_field_ramp self fuel t rate pmc _ _ _ _ _ Hf Hne Hh H0 H2).
    rewrite Hz, andb_false_r. subst w3. destruct rate; reflexivity. }
  split; [exact Hrun|]. rewrite Hrun.
  rewrite emits_quiet_writes.
  - assert (Hw2 : writes (trace w2) = writes (trace w)).
    { rewrite (switch_heater_status_writes _ _ _ Hh).
      now apply field_writes with f. }
    subst w3. destruct rate; simpl.
    + rewrite !writes_app, Hw2, <- app_assoc. reflexivity.
    + rewrite writes_app, Hw2. reflexivity.
  - apply emits_bind; [apply wait_for_idle_quiet|]. intros _.
    apply emits_bind; [now apply emits_sleep | intros _; apply emits_ret].
Qed.

(** X12: both mode transitions refuse a magnet that is not at rest before
    they do anything.  When the sweep status reads anything but "at rest",
    [enable_persistent_mode] and [disable_persistent_mode] raise their
    [MagnetError] after that single query: the heater status is not read
    and nothing is sent. *)
Theorem persistent_mode_needs_rest self fuel w s w1 :
  sweep_status w = (Returned s, w1) ->
  String.eqb s "at rest" = false ->
  enable_persistent_mode self fuel w = (Raised NotAtRest_enable, w1) /\
  disable_persistent_mode self fuel w = (Raised NotAtRest_disable, w1) /\
  trace w1 = trace w ++ [Asked "X"] /\
  is_ValueError NotAtRest_enable = true /\
  is_ValueError NotAtRest_disable = true.
Proof.
  intros Hs Hne. repeat split.
  - unfold enable_persistent_mode.
    now rewrite (bind_returned _ _ _ _ _ Hs), Hne.
  - unfold disable_persistent_mode.
    now rewrite (bind_returned _ _ _ _ _ Hs), Hne.
  - now apply sweep_status_log in Hs as [Ht _].
Qed.

(** X13: [disable_persistent_mode] can fail after it has changed the
    set-point.  The heater status is read after the reconciliation, so when
    the effective field differs from the set-point and the heater status
    then reads an unexpected code, the call raises
    [SwitchHeaterStatusError] with the set-point command already sent (and
    nothing else). *)
Theorem disable_persistent_mode_fails_after_write self fuel
  w w1 f w2 sp w3 f' w3' v h w4 :
  sweep_status w = (Returned "at rest", w1) ->
  field w1 = (Returned f, w2) ->
  field_setpoint w2 = (Returned sp, w3) ->
  Qeq_bool f sp = false ->
  field w3 = (Returned f', w3') ->
  truncated_range E f' (FIELD_RANGE w3') = inr v ->
  switch_heater_status (do_write (SetFloat "$J%f" v) w3') = (Returned h, w4) ->
  h <> 0 -> h <> 1 -> h <> 2 ->
  disable_persistent_mode self fuel w =
    (Raised (SwitchHeaterStatusError h), w4) /\
  writes (trace w4) = writes (trace w) ++ [Wrote (SetFloat "$J%f" v)].
Proof.
  intros Hs Hf Hsp Hne Hf' Hv Hh H0 H1 H2.
  rewrite (disable_persistent_mode_unfold self fuel _ _ _ _ _ _ Hs Hf Hsp).
  rewrite Hne. simpl negb.
  assert (Hset : (f'0 <- field ;; set_field_setpoint f'0) w3 =
                 (Returned tt, do_write (SetFloat "$J%f" v) w3')).
  { rewrite (bind_returned _ _ _ _ _ Hf'). unfold set_field_setpoint.
    rewrite (bind_returned _ _ _ _ _
               (eq_refl : peek FIELD_RANGE w3' =
                          (Returned (FIELD_RANGE w3'), w3'))).
    now rewrite Hv. }
  rewrite (bind_returned _ _ _ _ _ Hset).
  rewrite (bind_returned _ _ _ _ _ Hh).
  apply Z.eqb_neq in H0, H1, H2. rewrite H0, H1, H2. split; [reflexivity|].
  rewrite (switch_heater_status_writes _ _ _ Hh). simpl.
  rewrite writes_app, (field_writes _ _ _ Hf').
  rewrite (field_setpoint_writes _ _ _ Hsp), (field_writes _ _ _ Hf).
  now rewrite (sweep_status_writes _ _ _ Hs).
Qed.

Lemma bind_ext {A B} (m : M A) (k1 k2 : A -> M B) w :
  (forall a w', k1 a w' = k2 a w') -> bind m k1 w = bind m k2 w.
Proof.
  intros H. unfold bind. destruct (m w) as [[a|e|] w']; [apply H | | ];
    reflexivity.
Qed.

Lemma train_loop_app self fuel pre post w :
  train_loop self fuel (pre ++ post) w =
  (train_loop self fuel pre ;;; train_loop self fuel post) w.
Proof.
  revert w. induction pre as [|[fld rate] pre IH]; intros w; [reflexivity|].
  simpl. rewrite bind_assoc. apply bind_ext. intros _ w'. apply IH.
Qed.

(** X14: [train_magnet] stops at the first step that fails.  If the steps
    before it returned and [set_field] raises for one step, [train_magnet]
    raises that exception in the world that step left: no later step runs
    and the closing [set_field(0)] is not called. *)
Theorem train_magnet_stops_at_failure self fuel pre fld rate post w w1 e w2 :
  train_loop self fuel pre w = (Returned tt, w1) ->
  set_field self fuel fld (Some rate) false w1 = (Raised e, w2) ->
  train_magnet self fuel (pre ++ (fld, rate) :: post) w = (Raised e, w2).
Proof.
  intros Hpre Hstep. unfold train_magnet.
  apply bind_raised. rewrite train_loop_app.
  rewrite (bind_returned _ _ _ _ _ Hpre). simpl.
  now rewrite (bind_raised _ _ _ _ _ Hstep).
Qed.

(** X15: a magnet in persistent mode cannot be trained.  When the heater is
    reported off and the first training field differs from the effective
    field, [train_magnet] raises the [MagnetError] of the persistent-mode
    gate at its first step and has sent no set command. *)
Theorem train_magnet_refused_in_persistent_mode self fuel fld rate rest
  w f w1 h w2 :
  field w = (Returned f, w1) ->
  Qeq_bool f fld = false ->
  switch_heater_status w1 = (Returned h, w2) ->
  h = 0 \/ h = 2 ->
  train_magnet self fuel ((fld, rate) :: rest) w =
    (Raised PersistentModeNotAllowed, w2) /\
  writes (trace w2) = writes (trace w).
Proof.
  intros Hf Hne Hh Hoff. split.
  - assert (Hstep : set_field self fuel fld (Some rate) false w =
                    (Raised PersistentModeNotAllowed, w2)).
    { unfold set_field. rewrite (bind_returned _ _ _ _ _ Hf), Hne.
      rewrite (bind_returned _ _ _ _ _ Hh).
      destruct Hoff; subst h; reflexivity. }
    unfold train_magnet. apply bind_raised. simpl.
    now rewrite (bind_raised _ _ _ _ _ Hstep).
  - rewrite (switch_heater_status_writes _ _ _ Hh).
    now apply field_writes with f.
Qed.

(** ** The value maps of the mapped properties *)

Lemma dict_get_In d k v : dict_get d k = Some v -> In (k, v) d.
Proof.
  induction d as [|[k0 v0] d IH]; simpl; [discriminate|].
  destruct (String.eqb_spec k0 k) as [->|Hk].
  - intros [= ->]. now left.
  - intros H. right. now apply IH.
Qed.

Lemma dict_inverse_In d k v : dict_inverse d v = Some k -> In (k, v) d.
Proof.
  induction d as [|[k0 v0] d IH]; simpl; [discriminate|].
  destruct (Z.eqb_spec v0 v) as [->|Hv].
  - intros [= ->]. now left.
  - intros H. right. now apply IH.
Qed.

(** In a dictionary without repeated keys and without repeated values,
    looking a key up and looking a value up are inverse to each other. *)
Lemma dict_round_trip d :
  NoDup (map fst d) -> NoDup (map snd d) ->
  forall k v, dict_get d k = Some v <-> dict_inverse d v = Some k.
Proof.
  induction d as [|[k0 v0] d IH]; intros Hk Hv k v; simpl;
    [split; discriminate|].
  inversion Hk as [|? ? Hk0 Hk']; inversion Hv as [|? ? Hv0 Hv']; subst.
  specialize (IH Hk' Hv' k v).
  destruct (String.eqb_spec k0 k) as [->|Hne];
    destruct (Z.eqb_spec v0 v) as [->|Hnv].
  - split; reflexivity.
  - split; [intros [= ->]; contradiction|].
    intros H. apply dict_inverse_In in H. exfalso. apply Hk0.
    change k with (fst (k, v)). now apply in_map.
  - split; [|intros [= ->]; contradiction].
    intros H. apply dict_get_In in H. exfalso. apply Hv0.
    change v with (snd (k, v)). now apply in_map.
  - exact IH.
Qed.

Lemma value_maps_NoDup values :
  In values [control_mode_values; activity_values; sweep_status_values] ->
  NoDup (map fst values) /\ NoDup (map snd values).
Proof.
  intros [<- | [<- | [<- | []]]]; split; simpl;
    repeat (constructor; [simpl; intuition (discriminate || lia)|]);
    constructor.
Qed.

(** X16: the value maps of [control_mode], [activity] and [sweep_status]
    translate both ways without loss: in each of them a name has a code
    exactly when that code reads back as that name.  So a reply that decodes
    to the code of a name reads as that name, for each of the three
    properties.  Setting [activity] to a name of its map transmits the code
    of the name and nothing else; setting it to any other name raises
    [KeyError] and transmits nothing.  Setting [control_mode] hands the name
    to its validator first: what the validator raises is raised and nothing
    is transmitted, and what it lets through is transmitted as its code. *)
Theorem mapped_values_round_trip name code :
  (forall values,
     In values [control_mode_values; activity_values; sweep_status_values] ->
     (dict_get values name = Some code <->
      dict_inverse values code = Some name)) /\
  (forall w d,
     dict_get control_mode_values name = Some code ->
     ask_int (chan E) "X" 6 (dev w) = (inr code, d) ->
     control_mode w = (Returned name, log (Asked "X") d w)) /\
  (forall w d,
     dict_get activity_values name = Some code ->
     ask_int (chan E) "X" 4 (dev w) = (inr code, d) ->
     activity w = (Returned name, log (Asked "X") d w)) /\
  (forall w d,
     dict_get sweep_status_values name = Some code ->
     ask_int (chan E) "X" 11 (dev w) = (inr code, d) ->
     sweep_status w = (Returned name, log (Asked "X") d w)) /\
  (forall w,
     dict_get activity_values name = Some code ->
     set_activity name w = (Returned tt, do_write (SetInt "$A%d" code) w)) /\
  (forall w,
     dict_get activity_values name = None ->
     set_activity name w = (Raised KeyError, w)) /\
  (forall w e,
     strict_discrete_set E name control_mode_values = inl e ->
     set_control_mode name w = (Raised e, w)) /\
  (forall w accepted,
     strict_discrete_set E name control_mode_values = inr accepted ->
     dict_get control_mode_values accepted = Some code ->
     set_control_mode name w =
       (Returned tt, do_write (SetInt "$C%d" code) w)).
Proof.
  assert (Hrt : forall values,
            In values [control_mode_values; activity_values;
                       sweep_status_values] ->
            (dict_get values name = Some code <->
             dict_inverse values code = Some name)).
  { intros values Hin. destruct (value_maps_NoDup values Hin) as [Hk Hv].
    exact (dict_round_trip values Hk Hv name code). }
  assert (Hget : forall k values w d,
            In values [control_mode_values; activity_values;
                       sweep_status_values] ->
            dict_get values name = Some code ->
            ask_int (chan E) "X" k (dev w) = (inr code, d) ->
            mapped_get "X" k values w =
              (Returned name, log (Asked "X") d w)).
  { intros k values w d Hin Hg Hask. apply (Hrt values Hin) in Hg.
    unfold mapped_get, bind, query_int. rewrite Hask. simpl.
    now rewrite Hg. }
  split; [exact Hrt|].
  split; [intros w d; apply Hget; now left|].
  split; [intros w d; apply Hget; right; now left|].
  split; [intros w d; apply Hget; right; right; now left|].
  split; [|split; [|split]].
  - intros w Hg. unfold set_activity, mapped_set. now rewrite Hg.
  - intros w Hg. unfold set_activity, mapped_set. now rewrite Hg.
  - intros w e He. unfold set_control_mode. now rewrite He.
  - intros w accepted Ha Hg. unfold set_control_mode. rewrite Ha.
    unfold lift.
    rewrite (bind_returned _ _ _ _ _
               (eq_refl : ret accepted w = (Returned accepted, w))).
    unfold mapped_set. now rewrite Hg.
Qed.

End Properties.

(** * The driver on concrete devices *)

(** C4 at work: the heater is off, the persistent field is 5 T and the target
    is 5 T. *)
Lemma set_field_at_target_is_noop_witness :
  let w := boot lab [Int 0; Float 5%Q] in
  let w1 := snd (field w) in
  field w = (Returned 5%Q, w1) /\
  Qeq_bool 5%Q 5%Q = true /\
  set_field ips 3 5%Q (Some 1%Q) true w = (Returned tt, w1) /\
  writes (trace w1) = writes (trace w).
Proof.
  cbv zeta. split; [reflexivity|]. split; [reflexivity|].
  eapply set_field_at_target_is_noop; reflexivity.
Defined.

(** C1 as stated fails when the target is the field the magnet already has:
    the device reports persistent mode, and the call returns instead of
    raising. *)
Lemma set_field_persistent_same_target_returns :
  let w := boot lab [Int 0; Float 5%Q] in
  fst (switch_heater_status w) = Returned 0 /\
  fst (set_field ips 3 5%Q None false w) = Returned tt /\
  ~ (exists e, fst (set_field ips 3 5%Q None false w) = Raised e).
Proof.
  cbv zeta. split; [reflexivity|]. split; [reflexivity|].
  intros [e He]. discriminate He.
Qed.

(** C1 (amended) at work: the heater is off, the persistent field is 5 T and
    the target is 7 T. *)
Lemma set_field_persistent_mode_not_allowed_witness :
  let w := boot lab [Int 0; Float 5%Q; Int 0] in
  let w1 := snd (field w) in
  let w2 := snd (switch_heater_status w1) in
  field w = (Returned 5%Q, w1) /\
  Qeq_bool 5%Q 7%Q = false /\
  switch_heater_status w1 = (Returned 0, w2) /\
  set_field ips 3 7%Q None false w = (Raised PersistentModeNotAllowed, w2) /\
  is_ValueError PersistentModeNotAllowed = true /\
  writes (trace w2) = writes (trace w).
Proof.
  cbv zeta. split; [reflexivity|]. split; [reflexivity|].
  split; [reflexivity|].
  eapply set_field_persistent_mode_not_allowed;
    [reflexivity | reflexivity | reflexivity | now left].
Defined.

(** C9 at work: the heater is on; with a demand field of 0 T the supply is
    shut down, with a demand field of 5 T the call is refused and nothing is
    sent. *)
Lemma disable_control_only_at_zero_field_witness :
  let w := boot lab [Int 1; Float 0%Q] in
  let w1 := snd (field w) in
  let w' := boot lab [Int 1; Float 5%Q] in
  let w1' := snd (field w') in
  field w = (Returned 0%Q, w1) /\
  disable_control w =
    (Returned tt,
     do_write (SetInt "$C%d" 2)
       (do_write (SetInt "$A%d" 4) (do_write (SetInt "$H%d" 0) w1))) /\
  field w' = (Returned 5%Q, w1') /\
  disable_control w' = (Raised FieldNotZero, w1') /\
  writes (trace w1') = writes (trace w').
Proof.
  cbv zeta. split; [reflexivity|].
  destruct (disable_control_only_at_zero_field
              (boot lab [Int 1; Float 0%Q]) 0%Q _ eq_refl) as [_ [_ H]].
  destruct (H eq_refl) as [_ H'].
  split; [exact (H' eq_refl)|]. split; [reflexivity|].
  destruct (disable_control_only_at_zero_field
              (boot lab [Int 1; Float 5%Q]) 5%Q _ eq_refl) as [Hw [Hno _]].
  destruct (Hno eq_refl) as [Hraise _].
  split; [exact Hraise | exact Hw].
Defined.

(** C2 at work: at rest, heater on, and at rest again at the first poll. *)
Lemma enable_persistent_mode_sequence_witness :
  let w := boot lab [Int 0; Int 1; Int 0] in
  let w1 := snd (sweep_status w) in
  let w2 := snd (switch_heater_status w1) in
  sweep_status w = (Returned "at rest", w1) /\
  switch_heater_status w1 = (Returned 1, w2) /\
  writes (trace (snd (enable_persistent_mode ips 3 w))) =
    writes (trace w) ++ [Wrote (SetInt "$A%d" 0); Wrote (SetInt "$H%d" 0);
                         Wrote (SetInt "$A%d" 2)].
Proof.
  cbv zeta. split; [reflexivity|]. split; [reflexivity|].
  destruct (enable_persistent_mode_sequence ips 3
              (boot lab [Int 0; Int 1; Int 0]) _ 1 _ eq_refl eq_refl)
    as [_ [_ [H _]]].
  destruct (H eq_refl) as [_ [_ H']]. exact H'.
Defined.



(** C5 as stated fails at its end: on the idealised supply, cold and in
    demand mode, the training scheme of the specification returns with the
    heater still on; the magnet is at 0 T in demand mode, not persistent. *)
Lemma train_magnet_ends_in_demand_mode :
  let w := boot (env simulated truncating) sim_cold in
  let r := train_magnet ips 3 [(5%Q, 1%Q); (10%Q, (1 # 2)%Q)] w in
  fst r = Returned tt /\
  fst (switch_heater_status (snd r)) = Returned 1 /\
  fst (field (snd r)) = Returned 0%Q /\
  ~ (fst (switch_heater_status (snd r)) = Returned 0 \/
     fst (switch_heater_status (snd r)) = Returned 2).
Proof.
  cbv zeta. split; [reflexivity|]. split; [reflexivity|].
  split; [reflexivity|]. intros [H | H]; discriminate H.
Qed.

(** C6 as stated fails: with the default range of -16 T to 16 T, in demand
    mode at 0 T, a target of 20 T is not rejected before anything is sent.
    With the truncating validator the call returns, after an activity
    command and a set-point command for 16 T; with a validator that rejects,
    the activity command has gone out before the error is raised. *)
Lemma set_field_out_of_range_sends_commands :
  let script := [Int 1; Float 0%Q; Int 1; Int 0] in
  let r := set_field ips 3 20%Q None false
             (boot (env scripted truncating) script) in
  let r' := set_field ips 3 20%Q None false
              (boot (env scripted rejecting) script) in
  Qmax_list _FIELD_RANGE_initial = Some 16%Q /\
  Qle_bool 20%Q 16%Q = false /\
  fst r = Returned tt /\
  writes (trace (snd r)) =
    [Wrote (SetInt "$A%d" 1); Wrote (SetFloat "$J%f" 16%Q)] /\
  fst r' = Raised (ValueError "value is not in range") /\
  writes (trace (snd r')) = [Wrote (SetInt "$A%d" 1)].
Proof. cbv zeta. repeat split; reflexivity. Qed.

(** C6 (amended) at work: the same call with the truncating validator,
    through the theorem: 20 T is above the range and 16 T is sent. *)
Lemma set_field_validates_after_activity_witness :
  let w := boot lab [Int 1; Float 0%Q; Int 1; Int 0] in
  let w1 := snd (field w) in
  let w2 := snd (switch_heater_status w1) in
  field w = (Returned 0%Q, w1) /\
  Qeq_bool 0%Q 20%Q = false /\
  switch_heater_status w1 = (Returned 1, w2) /\
  Qeq_bool 20%Q 0%Q = false /\
  set_field ips 3 20%Q None false w =
    (wait_for_idle_default 3 ;;; sleep 10%Q ;;; ret tt)
      (do_write (SetFloat "$J%f" 16%Q) (do_write (SetInt "$A%d" 1) w2)).
Proof.
  cbv zeta. split; [reflexivity|]. split; [reflexivity|].
  split; [reflexivity|]. split; [reflexivity|].
  destruct (set_field_validates_after_activity ips 3 20%Q None false
              (boot lab [Int 1; Float 0%Q; Int 1; Int 0])
              0%Q _ _ eq_refl eq_refl eq_refl eq_refl) as [_ [_ H]].
  destruct (H truncating_truncates (-16)%Q 16%Q eq_refl eq_refl)
    as [Habove _].
  exact (Habove eq_refl).
Defined.

(** C10: the field range of an instance does not survive the construction
    of another one.  Instance A is constructed with the defaults and
    validates 5 T against -16 T to 16 T; then instance B is constructed on
    another channel with [field_range=1]; from then on A validates 5 T
    against -1 T to 1 T and, with the truncating validator, transmits 1 T. *)
Lemma second_instance_changes_first_instance_range :
  let w0 := boot lab [] in
  let w1 := snd (__init__ true None None w0) in
  let w2 := snd (__init__ true None (Some (RangeNumber 1%Q)) (attach (E := lab) [] w1)) in
  let w3 := attach (dev w1) w2 in
  FIELD_RANGE w1 = [(-16)%Q; 16%Q] /\
  writes (trace (snd (set_field_setpoint 5%Q w1))) =
    [Wrote (SetFloat "$J%f" 5%Q)] /\
  FIELD_RANGE w3 = [(- (1))%Q; 1%Q] /\
  FIELD_RANGE w3 <> FIELD_RANGE w1 /\
  writes (trace (snd (set_field_setpoint 5%Q w3))) =
    [Wrote (SetFloat "$J%f" 1%Q)].
Proof.
  cbv zeta. split; [reflexivity|]. split; [reflexivity|].
  split; [reflexivity|]. split; [discriminate|]. reflexivity.
Qed.

(** C7: the code does not do what the claim and the documentation of
    [max_errors] say when the communication itself fails.  The first three
    status queries fail with an I/O error of the channel, which is no
    [ValueError], the fourth would read "at rest", and [max_errors] is 2:
    the first failure ends [wait_for_idle] with that error after one poll;
    nothing is counted and the error for too many errors is not raised. *)
Lemma wait_for_idle_io_error_propagates :
  let w := boot lab [Fails (OSError "timeout"); Fails (OSError "timeout");
                     Fails (OSError "timeout"); Int 0] in
  let r := wait_for_idle 10 1%Q (Some 2) None (fun _ => false) w in
  fst r = Raised (OSError "timeout") /\
  fst r <> Raised TooManyErrors /\
  is_ValueError (OSError "timeout") = false /\
  trace (snd r) = polls 1 1%Q.
Proof.
  cbv zeta. split; [reflexivity|]. split; [discriminate|].
  split; reflexivity.
Qed.




(** * Further properties at work *)

(** X2 at work: three garbled replies against [max_errors=2]. *)
Lemma wait_for_idle_raises_witness :
  let w := boot lab [Fails (ValueError "garbled"); Fails (ValueError "garbled");
                     Fails (ValueError "garbled"); Int 0] in
  let r := wait_for_idle 4 1%Q (Some 2) None (fun _ => false) w in
  r = (Raised TooManyErrors, snd r) /\
  (is_ValueError TooManyErrors = true ->
   TooManyErrors = TooManyErrors /\ Some 2 <> None) /\
  (Some 2 = None -> is_ValueError TooManyErrors = false).
Proof.
  cbv zeta. split; [reflexivity|].
  exact (wait_for_idle_raises 4 1%Q (Some 2) None (fun _ => false)
           (boot lab [Fails (ValueError "garbled");
                      Fails (ValueError "garbled");
                      Fails (ValueError "garbled"); Int 0])
           TooManyErrors _ eq_refl).
Defined.

(** X3 at work: a busy poll, a garbled reply, then "at rest", with one
    error allowed and ten seconds to wait. *)
Lemma wait_for_idle_returns_when_at_rest_witness :
  let w := boot lab [Int 1; Fails (ValueError "garbled"); Int 0] in
  errors_upto (fun j => (j =? 1)%nat) 2 <= 1 /\
  sweep_status (do_sleep 1%Q (after_polls 1%Q w 2)) =
    (Returned "at rest", after_polls 1%Q w 3) /\
  wait_for_idle 3 1%Q (Some 1) (Some 10%Q) (fun _ => false) w =
    (Returned tt, after_polls 1%Q w 3).
Proof.
  cbv zeta. split; [simpl; lia|]. split; [reflexivity|].
  apply (wait_for_idle_returns_when_at_rest 1%Q (Some 1) (Some 10%Q)
           (fun _ => false) (after_polls 1%Q (boot lab _))
           (fun j => (j =? 1)%nat) 2 3).
  - intros j Hj. destruct j as [|[|j]]; [| |exfalso; lia].
    + split; [reflexivity|]. split; [|discriminate].
      exists "sweeping". split; reflexivity.
    + split; [reflexivity|]. split; [|discriminate].
      exists (ValueError "garbled"). split; reflexivity.
  - simpl. lia.
  - reflexivity.
  - lia.
Defined.


(** X27 at work: three garbled status replies, then a reply that would
    read "at rest"; [max_errors] is 2.  The fourth reply is still unread
    when the call raises. *)
Lemma wait_for_idle_too_many_errors_witness :
  let w := boot lab [Fails (ValueError "garbled"); Fails (ValueError "garbled");
                     Fails (ValueError "garbled"); Int 0] in
  (wait_for_idle 4 1%Q (Some 2) None (fun _ => false) w =
     (Raised TooManyErrors, after_polls 1%Q w 3) /\
   is_ValueError TooManyErrors = true /\
   trace (after_polls 1%Q w 3) = trace w ++ polls 3 1%Q) /\
  dev (after_polls 1%Q w 3) = [Int 0].
Proof.
  cbv zeta. split; [|reflexivity].
  refine (wait_for_idle_too_many_errors 1%Q 2 (fun _ => false)
            (after_polls 1%Q (boot lab _)) 4 _ _ _).
  - lia.
  - intros j Hj.
    destruct j as [|[|[|j]]];
      [ exists (ValueError "garbled"); repeat split; reflexivity ..
      | exfalso; simpl in Hj; lia ].
  - simpl. lia.
Defined.

(** X28 at work: a busy poll, a garbled reply, then an I/O error of the
    channel, with five errors allowed. *)
Lemma wait_for_idle_lets_other_errors_through_witness :
  let w := boot lab [Int 1; Fails (ValueError "garbled");
                     Fails (OSError "timeout"); Int 0] in
  errors_upto (fun j => (j =? 1)%nat) 2 <= 5 /\
  is_ValueError (OSError "timeout") = false /\
  wait_for_idle 3 1%Q (Some 5) None (fun _ => false) w =
    (Raised (OSError "timeout"), after_polls 1%Q w 3).
Proof.
  cbv zeta. split; [simpl; lia|]. split; [reflexivity|].
  apply (wait_for_idle_lets_other_errors_through 1%Q (Some 5) None
           (fun _ => false) (after_polls 1%Q (boot lab _))
           (fun j => (j =? 1)%nat) 2 3 (OSError "timeout")).
  - intros j Hj. destruct j as [|[|j]]; [| |exfalso; lia].
    + split; [reflexivity|]. split; [|exact I].
      exists "sweeping". split; reflexivity.
    + split; [reflexivity|]. split; [|exact I].
      exists (ValueError "garbled"). split; reflexivity.
  - simpl. lia.
  - reflexivity.
  - reflexivity.
  - lia.
Defined.

(** X9 at work: the supply is clamped, the heater is on and the field is
    0 T. *)
Lemma enable_control_sequence_witness :
  let w := boot lab [Int 4; Int 1; Float 0%Q] in
  strict_discrete_set lab "RU" control_mode_values = inr "RU" /\
  fst (activity (do_write (SetInt "$C%d" 3) w)) = Returned "clamp" /\
  writes (trace (snd (enable_control w))) =
    writes (trace w) ++ [Wrote (SetInt "$C%d" 3)]
    ++ [Wrote (SetInt "$A%d" 0)] ++ [Wrote (SetInt "$H%d" 1)].
Proof.
  cbv zeta. split; [reflexivity|]. split; [reflexivity|].
  refine (proj2 (enable_control_sequence
                   (boot lab [Int 4; Int 1; Float 0%Q]) "clamp" _ 0%Q _
                   eq_refl eq_refl eq_refl)).
Defined.

(** X10 at work: the heater status reads 5, a fault code, every time it is
    asked.  The ramp from 0 T to 3 T is made all the same; without control
    of the persistent mode the call returns, with it the fault is reported
    at the end. *)
Lemma set_field_ramps_unless_heater_off_witness :
  let w := boot lab [Int 5; Float 0%Q; Int 5; Int 0; Int 0; Int 5] in
  fst (field w) = Returned 0%Q /\
  fst (switch_heater_status (snd (field w))) = Returned 5 /\
  fst (set_field ips 3 3%Q None false w) = Returned tt /\
  fst (set_field ips 3 3%Q None true w) = Raised (SwitchHeaterStatusError 5) /\
  writes (trace (snd (set_field ips 3 3%Q None true w))) =
    [Wrote (SetInt "$A%d" 1); Wrote (SetFloat "$J%f" 3%Q)].
Proof.
  cbv zeta. split; [reflexivity|]. split; [reflexivity|].
  assert (H0 : 5 <> 0) by discriminate.
  assert (H1 : 5 <> 1) by discriminate.
  assert (H2 : 5 <> 2) by discriminate.
  destruct (set_field_ramps_unless_heater_off ips 3 3%Q None
              (boot lab [Int 5; Float 0%Q; Int 5; Int 0; Int 0; Int 5])
              0%Q _ 5 _ 3%Q _ eq_refl eq_refl eq_refl H0 H2 eq_refl eq_refl
              eq_refl) as [Hoff [_ [Hon Hw]]].
  destruct (Hon _ 5 _ eq_refl eq_refl H0 H1 H2) as [Hrun Hw8].
  rewrite Hoff, Hrun. split; [reflexivity|]. split; [reflexivity|].
  simpl snd. rewrite Hw8. exact Hw.
Defined.

(** X11 at work: from 5 T in demand mode to zero, with a sweep rate. *)
Lemma set_field_to_zero_witness :
  let w := boot lab [Int 1; Float 5%Q; Int 1; Int 0] in
  fst (field w) = Returned 5%Q /\
  writes (trace (snd (set_field ips 3 0%Q (Some 1%Q) true w))) =
    writes (trace w) ++ [Wrote (SetFloat "$T%f" 1%Q)]
    ++ [Wrote (SetInt "$A%d" 2)].
Proof.
  cbv zeta. split; [reflexivity|].
  refine (proj2 (set_field_to_zero ips 3 0%Q (Some 1%Q) true
                   (boot lab [Int 1; Float 5%Q; Int 1; Int 0]) 5%Q _ 1 _
                   eq_refl eq_refl eq_refl _ _ eq_refl)); discriminate.
Defined.

(** X12 at work: the magnet is sweeping. *)
Lemma persistent_mode_needs_rest_witness :
  let w := boot lab [Int 1] in
  let w1 := snd (sweep_status w) in
  sweep_status w = (Returned "sweeping", w1) /\
  enable_persistent_mode ips 3 w = (Raised NotAtRest_enable, w1) /\
  disable_persistent_mode ips 3 w = (Raised NotAtRest_disable, w1).
Proof.
  cbv zeta. split; [reflexivity|].
  destruct (persistent_mode_needs_rest ips 3 (boot lab [Int 1]) "sweeping" _
              eq_refl eq_refl) as [H1 [H2 _]].
  split; assumption.
Defined.

(** X13 at work: at rest, heater off, persistent field 5 T, set-point 3 T,
    and then a heater status of 5. *)
Lemma disable_persistent_mode_fails_after_write_witness :
  let w := boot lab [Int 0; Int 0; Float 5%Q; Float 3%Q;
                     Int 0; Float 5%Q; Int 5] in
  fst (disable_persistent_mode ips 3 w) = Raised (SwitchHeaterStatusError 5) /\
  writes (trace (snd (disable_persistent_mode ips 3 w))) =
    writes (trace w) ++ [Wrote (SetFloat "$J%f" 5%Q)].
Proof.
  cbv zeta.
  destruct (disable_persistent_mode_fails_after_write ips 3
              (boot lab [Int 0; Int 0; Float 5%Q; Float 3%Q;
                         Int 0; Float 5%Q; Int 5])
              _ 5%Q _ 3%Q _ 5%Q _ 5%Q 5 _
              eq_refl eq_refl eq_refl eq_refl eq_refl eq_refl eq_refl)
    as [Hrun Hw]; try discriminate.
  rewrite Hrun. split; [reflexivity | exact Hw].
Defined.

(** X14 at work: the magnet is persistent at 5 T; the first step asks for
    the 5 T it has, the second for 7 T. *)
Lemma train_magnet_stops_at_failure_witness :
  let w := boot lab [Int 0; Float 5%Q; Int 0; Float 5%Q; Int 0] in
  let w1 := snd (train_loop ips 3 [(5%Q, 1%Q)] w) in
  let w2 := snd (set_field ips 3 7%Q (Some 1%Q) false w1) in
  train_loop ips 3 [(5%Q, 1%Q)] w = (Returned tt, w1) /\
  set_field ips 3 7%Q (Some 1%Q) false w1 =
    (Raised PersistentModeNotAllowed, w2) /\
  train_magnet ips 3 ([(5%Q, 1%Q)] ++ (7%Q, 1%Q) :: [(9%Q, 1%Q)]) w =
    (Raised PersistentModeNotAllowed, w2).
Proof.
  cbv zeta. split; [reflexivity|]. split; [reflexivity|].
  apply train_magnet_stops_at_failure with
    (w1 := snd (train_loop ips 3 [(5%Q, 1%Q)]
                  (boot lab [Int 0; Float 5%Q; Int 0; Float 5%Q; Int 0])));
    reflexivity.
Defined.

(** X15 at work: the magnet is persistent at 5 T and the scheme starts at
    7 T. *)
Lemma train_magnet_refused_in_persistent_mode_witness :
  let w := boot lab [Int 0; Float 5%Q; Int 0] in
  let w2 := snd (switch_heater_status (snd (field w))) in
  field w = (Returned 5%Q, snd (field w)) /\
  train_magnet ips 3 [(7%Q, 1%Q); (9%Q, 1%Q)] w =
    (Raised PersistentModeNotAllowed, w2) /\
  writes (trace w2) = writes (trace w).
Proof.
  cbv zeta. split; [reflexivity|].
  eapply train_magnet_refused_in_persistent_mode;
    [reflexivity | reflexivity | reflexivity | now left].
Defined.

(** X16 at work: on the idealised supply, the activity is set to "clamp"
    and read back. *)
Lemma mapped_values_round_trip_witness :
  let w := boot (env simulated truncating) sim_cold in
  let w' := do_write (SetInt "$A%d" 4) w in
  dict_get activity_values "clamp" = Some 4 /\
  set_activity "clamp" w = (Returned tt, w') /\
  activity w' = (Returned "clamp", log (Asked "X") (dev w') w').
Proof.
  cbv zeta. split; [reflexivity|].
  destruct (mapped_values_round_trip (E := env simulated truncating)
              "clamp" 4) as [_ [_ [Hget [_ [Hset _]]]]].
  split; [apply Hset; reflexivity | apply Hget; reflexivity].
Defined.

(** * Properties of the input fields *)

Section InputFields.

Import Parameters.

Variable str_to_int : string -> option Z.
Variable obj_to_int : nat -> error + Z.
Variable obj_truth : nat -> bool.
Variable to_str : pyval -> string.
Variable strip : string -> string.
Variable getattr : pyval -> string -> outcome pyval.
Variable callable : pyval -> bool.
Variable call : pyval -> outcome pyval.

Local Abbreviation int := (int str_to_int obj_to_int).
Local Abbreviation Integer_convert := (Integer_convert str_to_int obj_to_int strip).
Local Abbreviation List_convert := (List_convert to_str strip).

(** ** [BooleanInputField.convert] *)

(** X17: what [BooleanInputField.convert] accepts.  A string that reads
    "true" or "false", whatever the case of its letters, converts to that
    [bool], and every other string is refused with one [ValueError].  A
    number equal to 1 or to 0, a [bool] among them, converts to [True] or
    [False], and every other value that is no string is refused with
    another [ValueError].  So whatever is returned is a [bool], converting
    it again returns it, and the branch for a [bool] that is no such number
    is never taken. *)
Theorem Boolean_convert_accepts :
  (forall s, lower s = "true"%string ->
     Boolean_convert (PStr s) = Ok (PBool true)) /\
  (forall s, lower s = "false"%string ->
     Boolean_convert (PStr s) = Ok (PBool false)) /\
  (forall s, lower s <> "true"%string -> lower s <> "false"%string ->
     Boolean_convert (PStr s) = Raise (ValueError BooleanGivenString)) /\
  (forall v, is_int_or_float v = true -> equals_int v 1 = true ->
     Boolean_convert v = Ok (PBool true)) /\
  (forall v, is_int_or_float v = true -> equals_int v 0 = true ->
     Boolean_convert v = Ok (PBool false)) /\
  (forall v, is_str v = false ->
     is_int_or_float v && (equals_int v 0 || equals_int v 1) = false ->
     Boolean_convert v = Raise (ValueError NotABoolean)) /\
  (forall v r, Boolean_convert v = Ok r ->
     exists b, r = PBool b /\ Boolean_convert r = Ok r) /\
  (forall v, is_bool v = true ->
     is_int_or_float v && (equals_int v 0 || equals_int v 1) = true).
Proof.
  assert (Hq : forall q, Qeq_bool q 1 = true -> Qeq_bool q 0 = false).
  { intros q H1. destruct (Qeq_bool q 0) eqn:H0; [|reflexivity].
    apply Qeq_bool_iff in H0, H1. rewrite H0 in H1. discriminate H1. }
  split; [|split; [|split; [|split; [|split; [|split; [|split]]]]]].
  - intros s Hs. simpl. now rewrite Hs.
  - intros s Hs. simpl. now rewrite Hs.
  - intros s Ht Hf. simpl.
    destruct (String.eqb_spec (lower s) "true"); [contradiction|].
    destruct (String.eqb_spec (lower s) "false"); [contradiction|].
    reflexivity.
  - intros v Hn H1.
    destruct v as [|b|z|[q| |neg]|s|l|l|o]; try discriminate; simpl in *.
    + destruct b; [reflexivity | discriminate].
    + apply Z.eqb_eq in H1. now subst z.
    + change (inject_Z 1) with 1%Q in H1. change (inject_Z 0) with 0%Q.
      change (inject_Z 1) with 1%Q. now rewrite H1, (Hq q H1).
  - intros v Hn H0.
    destruct v as [|b|z|[q| |neg]|s|l|l|o]; try discriminate; simpl in *.
    + destruct b; [discriminate | reflexivity].
    + apply Z.eqb_eq in H0. now subst z.
    + change (inject_Z 0) with 0%Q in H0. change (inject_Z 0) with 0%Q.
      now rewrite H0.
  - intros v Hs Hn.
    destruct v as [|[]|z|[q| |neg]|s|l|l|o]; try discriminate;
      simpl in *; try discriminate; try reflexivity; now rewrite Hn.
  - intros v r.
    destruct v as [|[]|z|[q| |neg]|s|l|l|o]; simpl; try discriminate;
      repeat match goal with
             | |- (if ?c then _ else _) = _ -> _ => destruct c; simpl
             end;
      try discriminate; intros [= <-];
      (eexists; split; [reflexivity|]);
      match goal with
      | |- Boolean_convert (PBool ?b) = _ => destruct b; reflexivity
      end.
  - intros v Hv. destruct v as [|[]|z|f|s|l|l|o]; simpl in *; congruence.
Qed.

(** ** [IntegerInputField.convert] *)

Lemma Integer_convert_int units lo hi z :
  Integer_convert units lo hi (PInt z) =
  if z <? lo then Raise (ValueError BelowMinimum)
  else if z >? hi then Raise (ValueError AboveMaximum)
  else Ok (PInt z).
Proof. reflexivity. Qed.

Lemma Integer_convert_result units lo hi value r :
  Integer_convert units lo hi value = Ok r ->
  exists z, r = PInt z /\ lo <= z <= hi.
Proof.
  unfold Parameters.Integer_convert, and_then.
  destruct (match value with
            | PStr s =>
                let '(v, _, u) := partition_space (strip s) in
                if negb (u =? "")%string && differs u units
                then Raise (ValueError UnitsDoNotMatch)
                else Ok (PStr v)
            | _ => Ok value
            end) as [v|e]; [|discriminate].
  destruct (int v) as [z|[why|why| |]]; try discriminate.
  destruct (z <? lo) eqn:Hlo; [discriminate|].
  destruct (z >? hi) eqn:Hhi; [discriminate|].
  intros [= <-]. exists z. split; [reflexivity|].
  apply Z.ltb_ge in Hlo. rewrite Z.gtb_ltb in Hhi. apply Z.ltb_ge in Hhi.
  lia.
Qed.

(** X18: whatever [IntegerInputField.convert] returns is an [int] within the
    bounds, both included, and converting it again returns it unchanged.
    This holds for every input, a string with units included, and for any
    behaviour of [int()] and [str.strip()]. *)
Theorem Integer_convert_in_range units lo hi value r :
  Integer_convert units lo hi value = Ok r ->
  exists z, r = PInt z /\ lo <= z <= hi /\
            Integer_convert units lo hi r = Ok r.
Proof.
  intros H. destruct (Integer_convert_result _ _ _ _ _ H) as [z [-> Hb]].
  exists z. split; [reflexivity|]. split; [exact Hb|].
  rewrite Integer_convert_int.
  replace (z <? lo) with false by (symmetry; apply Z.ltb_ge; lia).
  replace (z >? hi) with false
    by (symmetry; rewrite Z.gtb_ltb; apply Z.ltb_ge; lia).
  reflexivity.
Qed.

(** X19: what [IntegerInputField.convert] makes of a number.  A [bool]
    counts as 0 or 1 and a float is cut to the integer towards zero, not
    refused; the lower bound is tested first, so with the bounds crossed
    every number is "below the minimum" or "above the maximum".  A NaN is
    refused as a non-integer, while an infinity ends in the
    [OverflowError] of [int()], which is no [ValueError]. *)
Theorem Integer_convert_number units lo hi :
  let check := fun z =>
    if z <? lo then Raise (ValueError BelowMinimum)
    else if z >? hi then Raise (ValueError AboveMaximum)
    else Ok (PInt z) in
  (forall z, Integer_convert units lo hi (PInt z) = check z) /\
  (forall b : bool,
     Integer_convert units lo hi (PBool b) = check (if b then 1 else 0)) /\
  (forall q,
     Integer_convert units lo hi (PFloat (Finite q)) =
     check (Z.quot (Qnum q) (Z.pos (Qden q)))) /\
  (hi < lo ->
   forall z, check z <> Ok (PInt z)) /\
  Integer_convert units lo hi (PFloat NaN) = Raise (ValueError NotAnInteger) /\
  (forall neg,
     Integer_convert units lo hi (PFloat (Infinity neg)) =
     Raise OverflowError) /\
  Integer_convert units lo hi PNone = Raise (TypeError FromBuiltin).
Proof.
  cbv zeta. repeat split.
  intros Hcross z.
  destruct (z <? lo) eqn:Hlo; [discriminate|].
  destruct (z >? hi) eqn:Hhi; [discriminate|].
  apply Z.ltb_ge in Hlo. rewrite Z.gtb_ltb in Hhi. apply Z.ltb_ge in Hhi.
  lia.
Qed.

Lemma contains_space_cons c v :
  contains " " (String c v) = false ->
  Ascii.eqb c Ascii.Space = false /\ contains " " v = false.
Proof.
  change (contains " " (String c v))
    with ((Ascii.eqb Ascii.Space c && true) || contains " " v).
  rewrite andb_true_r, Ascii.eqb_sym. apply orb_false_iff.
Qed.

Lemma partition_space_no_space v :
  contains " " v = false -> partition_space v = (v, "", "").
Proof.
  induction v as [|c v IH]; [reflexivity|].
  intros H. apply contains_space_cons in H as [Hc H].
  change (partition_space (String c v))
    with (if Ascii.eqb c Ascii.Space then ("", " ", v)
          else let '(before, sep, rest) := partition_space v in
               (String c before, sep, rest)).
  now rewrite Hc, (IH H).
Qed.

Lemma partition_space_split v u :
  contains " " v = false ->
  partition_space (v ++ " " ++ u) = (v, " ", u).
Proof.
  induction v as [|c v IH]; [reflexivity|].
  intros H. apply contains_space_cons in H as [Hc H].
  change (partition_space (String c v ++ " " ++ u))
    with (if Ascii.eqb c Ascii.Space then ("", " ", (v ++ " " ++ u)%string)
          else let '(before, sep, rest) := partition_space (v ++ " " ++ u) in
               (String c before, sep, rest)).
  now rewrite Hc, (IH H).
Qed.

(** X20: how [IntegerInputField.convert] reads a string.  The stripped
    string is cut at its first space: what is before it is handed to
    [int()], what is after it are the units.  Units that are not empty and
    are not exactly the units of the field are refused before the number is
    looked at, so a second space or a field without units refuses every
    string with a space in it; with the right units, or without a space, the
    string converts as its number part alone does. *)
Theorem Integer_convert_string units lo hi s v u :
  contains " " v = false ->
  strip s = (v ++ " " ++ u)%string \/ strip s = v /\ u = ""%string ->
  Integer_convert units lo hi (PStr s) =
  if negb (String.eqb u "") && differs u units
  then Raise (ValueError UnitsDoNotMatch)
  else
    match str_to_int v with
    | None => Raise (ValueError NotAnInteger)
    | Some z =>
        if z <? lo then Raise (ValueError BelowMinimum)
        else if z >? hi then Raise (ValueError AboveMaximum)
        else Ok (PInt z)
    end.
Proof.
  intros Hv Hs. unfold Parameters.Integer_convert.
  assert (Hp : let '(v', _, u') := partition_space (strip s) in
               v' = v /\ u' = u).
  { destruct Hs as [-> | [-> ->]].
    - now rewrite partition_space_split.
    - now rewrite partition_space_no_space. }
  destruct (partition_space (strip s)) as [[v' sep] u'].
  destruct Hp as [-> ->].
  destruct (negb (String.eqb u "") && differs u units); [reflexivity|].
  simpl. destruct (str_to_int v); reflexivity.
Qed.

(** X21: the value of an integer field is always within its bounds.  Once
    [IntegerInputField.__init__] has returned, whatever is assigned to
    [value] afterwards, failed assignments included, the [value] property
    either raises because no value is set or returns an [int] between
    [minimum] and [maximum]; and an [int] given as default lies between them
    too, since a default outside the bounds makes the constructor itself
    raise. *)
Theorem Integer_field_value_in_range name units lo_arg hi_arg step_arg
  default_arg ui group_by_arg' group_condition self :
  IntegerInputField__init__ str_to_int obj_to_int obj_truth strip
    name units lo_arg hi_arg step_arg default_arg ui group_by_arg'
    group_condition = Ok self ->
  (forall vs r,
     value (assignments
              (Integer_convert (Integer_units self) (minimum self)
                 (maximum self))
              (Integer_field self) vs) = Ok r ->
     exists z, r = PInt z /\ minimum self <= z <= maximum self) /\
  (forall z, default_arg = PInt z -> minimum self <= z <= maximum self).
Proof.
  intros Hinit.
  assert (Hinv : forall f : InputField,
    (_value f = PNone \/
     exists z, _value f = PInt z /\ minimum self <= z <= maximum self) ->
    forall r0, value f = Ok r0 ->
    exists z, r0 = PInt z /\ minimum self <= z <= maximum self).
  { intros f [Hn | [z [Hz Hb]]] r0; unfold value, is_set.
    - rewrite Hn. discriminate.
    - rewrite Hz. simpl. intros [= <-]. eauto. }
  assert (Hkeep : forall vs0 (f : InputField),
    (_value f = PNone \/
     exists z, _value f = PInt z /\ minimum self <= z <= maximum self) ->
    let f' := assignments
                (Integer_convert (Integer_units self) (minimum self)
                   (maximum self)) f vs0 in
    _value f' = PNone \/
    exists z, _value f' = PInt z /\ minimum self <= z <= maximum self).
  { induction vs0 as [|v vs0 IH]; intros f Hf; [exact Hf|].
    simpl. apply IH. unfold set_value, and_then.
    destruct (Integer_convert (Integer_units self) (minimum self)
                (maximum self) v) as [v'|e] eqn:Hc; [|exact Hf].
    right. simpl.
    destruct (Integer_convert_result _ _ _ _ _ Hc) as [z [-> Hb]].
    eauto. }
  assert (Hstart :
    (_value (Integer_field self) = PNone \/
     exists z, _value (Integer_field self) = PInt z /\
               minimum self <= z <= maximum self) /\
    (forall z, default_arg = PInt z -> minimum self <= z <= maximum self)).
  { unfold IntegerInputField__init__, and_then in Hinit.
    destruct (int lo_arg) as [lo|]; [|discriminate].
    destruct (int hi_arg) as [hi|]; [|discriminate].
    destruct (InputField__init__ (Integer_convert units lo hi) name
                default_arg ui group_by_arg' group_condition) as [f|] eqn:Hf;
      [|discriminate].
    destruct (if truthy obj_truth step_arg
              then match int step_arg with
                   | Ok a => Ok (Some a)
                   | Raise e => Raise e
                   end
              else Ok None) as [st|]; [|discriminate].
    injection Hinit as <-. simpl.
    unfold InputField__init__, and_then in Hf.
    destruct (contains ": " name); [discriminate|].
    destruct (is_None default_arg) eqn:Hnone.
    - destruct (normalise_group_by group_by_arg' group_condition);
        [|discriminate].
      injection Hf as <-. split; [now left|].
      intros z ->. discriminate Hnone.
    - destruct (Integer_convert units lo hi default_arg) as [v|] eqn:Hc;
        [|discriminate].
      destruct (normalise_group_by group_by_arg' group_condition);
        [|discriminate].
      injection Hf as <-. split.
      + right. simpl.
        destruct (Integer_convert_result _ _ _ _ _ Hc) as [z [-> Hb]].
        eauto.
      + intros z ->.
        destruct (Integer_convert_result _ _ _ _ _ Hc) as [z' [-> Hb]].
        rewrite Integer_convert_int in Hc.
        destruct (z <? lo); [discriminate|].
        destruct (z >? hi); [discriminate|].
        injection Hc as ->. exact Hb. }
  destruct Hstart as [Hfield Hdefault]. split; [|exact Hdefault].
  intros vs r Hval. apply Hinv with (2 := Hval). now apply Hkeep.
Qed.

(** ** Dictionaries built with [zip] *)

Lemma lookup_store d k v k' :
  lookup (store d k v) k' = if String.eqb k k' then Some v else lookup d k'.
Proof.
  induction d as [|[k0 v0] d IH]; [reflexivity|].
  simpl. destruct (String.eqb_spec k0 k) as [->|Hk]; simpl.
  - now destruct (String.eqb k k').
  - rewrite IH. destruct (String.eqb_spec k0 k') as [->|Hk'];
      [|reflexivity].
    destruct (String.eqb_spec k k') as [->|_]; [contradiction | reflexivity].
Qed.

Lemma lookup_dict_of_zip_other ks : forall d vs k,
  ~ In k ks -> lookup (dict_of_zip d ks vs) k = lookup d k.
Proof.
  induction ks as [|k0 ks IH]; intros d vs k Hk; [reflexivity|].
  destruct vs as [|v vs]; [reflexivity|]. simpl.
  rewrite IH by (intros H; apply Hk; now right).
  rewrite lookup_store.
  destruct (String.eqb_spec k0 k) as [->|_]; [|reflexivity].
  exfalso. apply Hk. now left.
Qed.

Lemma lookup_dict_of_zip_found ks : forall d vs k r,
  lookup (dict_of_zip d ks vs) k = Some r ->
  lookup d k = Some r \/ In r vs.
Proof.
  induction ks as [|k0 ks IH]; intros d vs k r H; [now left|].
  destruct vs as [|v vs]; [now left|]. simpl in H.
  apply IH in H as [H | H]; [|right; now right].
  rewrite lookup_store in H.
  destruct (String.eqb k0 k); [|now left].
  injection H as <-. right. now left.
Qed.

Lemma unique_cons k ks :
  unique (k :: ks) = true <-> ~ In k ks /\ unique ks = true.
Proof.
  simpl. rewrite andb_true_iff, negb_true_iff. split; intros [H1 H2];
    (split; [|exact H2]).
  - intros Hin. assert (Hex : existsb (String.eqb k) ks = true).
    { apply existsb_exists. exists k. split; [exact Hin|].
      apply String.eqb_refl. }
    congruence.
  - destruct (existsb (String.eqb k) ks) eqn:Hex; [|reflexivity].
    apply existsb_exists in Hex as [k' [Hin Heq]].
    apply String.eqb_eq in Heq as <-. contradiction.
Qed.

Lemma unique_NoDup ks : unique ks = true <-> NoDup ks.
Proof.
  induction ks as [|k ks IH].
  - split; [constructor | reflexivity].
  - rewrite unique_cons, IH. split.
    + intros [H1 H2]. now constructor.
    + intros H. inversion H. now split.
Qed.

Lemma lookup_dict_of_zip_unique (key : pyval -> string) cs : forall d c,
  unique (List.map key cs) = true ->
  In c cs ->
  lookup (dict_of_zip d (List.map key cs) cs) (key c) = Some c.
Proof.
  induction cs as [|c0 cs IH]; intros d c Hu Hin; [destruct Hin|].
  simpl in Hu |- *. apply unique_cons in Hu as [Hnot Hu].
  destruct Hin as [-> | Hin].
  - rewrite lookup_dict_of_zip_other by exact Hnot.
    now rewrite lookup_store, String.eqb_refl.
  - now apply IH.
Qed.

(** ** [ListInputField] *)

(** X22: a list field gives back its own choices.  When [__init__] has
    accepted the choices, their string representations are pairwise
    different; every value whose string representation is that of a choice
    converts to that very choice (the choice itself, or its text), provided
    it is not a string from which the units are cut off first; and whatever
    [convert] returns is one of the choices. *)
Theorem List_convert_round_trip cs d :
  choices_dict to_str (Some cs) = Ok d ->
  NoDup (List.map (str to_str) cs) /\
  (forall units c v,
     In c cs ->
     str to_str v = str to_str c ->
     match v, units with
     | PStr s, Some u => endswith s (" " ++ u) = false
     | _, _ => True
     end ->
     List_convert units d v = Ok c) /\
  (forall units v r, List_convert units d v = Ok r -> In r cs).
Proof.
  unfold choices_dict.
  destruct (unique (List.map (str to_str) cs)) eqn:Hu; [|discriminate].
  simpl. intros [= <-]. split; [now apply unique_NoDup|]. split.
  - intros units c v Hin Hstr Hunits. unfold Parameters.List_convert.
    assert (Hv : match v, units with
                 | PStr s, Some u =>
                     if endswith s (" " ++ u)
                     then PStr (strip (drop_last (String.length u) s))
                     else v
                 | _, _ => v
                 end = v).
    { destruct v as [| | | |s| | |]; try reflexivity.
      destruct units as [u|]; [|reflexivity].
      replace (endswith s (" " ++ u)) with false
        by (symmetry; exact Hunits).
      reflexivity. }
    rewrite Hv, Hstr.
    now rewrite (lookup_dict_of_zip_unique (str to_str) cs [] c Hu Hin).
  - intros units v r. unfold Parameters.List_convert.
    match goal with
    | |- match lookup _ ?k with _ => _ end = _ -> _ =>
        destruct (lookup (dict_of_zip [] (List.map (str to_str) cs) cs) k)
          as [c|] eqn:Hl; [|discriminate]
    end.
    intros [= <-].
    apply lookup_dict_of_zip_found in Hl as [Hl | Hl];
      [discriminate | exact Hl].
Qed.

(** X23: a list field without choices is of no use.  When [__init__] is
    given no choices it only returns if there is no default either, and then
    every conversion raises its [ValueError], so no value can ever be
    assigned, and the [choices] property raises [AttributeError] where its
    documentation promises [None]. *)
Theorem List_without_choices name units default_arg ui group_by_arg'
  group_condition self :
  ListInputField__init__ to_str strip name None units default_arg ui
    group_by_arg' group_condition = Ok self ->
  default_arg = PNone /\
  is_set (List_field self) = false /\
  (forall v, List_convert (List_units self) (_choices self) v =
             Raise (ValueError ChoicesAreNone)) /\
  (forall vs, is_set (assignments
                        (List_convert (List_units self) (_choices self))
                        (List_field self) vs) = false) /\
  choices self = Raise AttributeError.
Proof.
  unfold ListInputField__init__, choices_dict, and_then.
  destruct (InputField__init__ (List_convert units None) name default_arg ui
              group_by_arg' group_condition) as [f|] eqn:Hf; [|discriminate].
  intros [= <-]. simpl.
  unfold InputField__init__, and_then in Hf.
  destruct (contains ": " name); [discriminate|].
  destruct default_arg; simpl in Hf; try discriminate.
  destruct (normalise_group_by group_by_arg' group_condition);
    [|discriminate].
  injection Hf as <-. repeat split.
  intros vs. induction vs as [|v vs IH]; [reflexivity | exact IH].
Qed.

(** ** [InputField.__init__]: the [group_by] argument *)

Lemma all_str_strings names : all_str (List.map PStr names) = Some names.
Proof.
  induction names as [|n names IH]; [reflexivity|].
  simpl. now rewrite IH.
Qed.

Lemma dict_of_zip_firstn ks : forall d (vs : list pyval),
  dict_of_zip d ks vs = dict_of_zip d (firstn (List.length vs) ks) vs.
Proof.
  induction ks as [|k ks IH]; intros d vs.
  - now rewrite firstn_nil.
  - destruct vs as [|v vs]; [reflexivity|]. simpl. apply IH.
Qed.

Lemma lookup_dict_of_zip_constant (c : pyval) ks : forall d k,
  lookup (dict_of_zip d ks (List.map (fun _ => c) ks)) k =
  if existsb (String.eqb k) ks then Some c else lookup d k.
Proof.
  induction ks as [|k0 ks IH]; intros d k; [reflexivity|].
  simpl. rewrite IH, lookup_store, (String.eqb_sym k k0).
  destruct (existsb (String.eqb k) ks); [now rewrite orb_true_r|].
  now rewrite orb_false_r.
Qed.

Lemma lookup_dict_of_zip_nth names : forall d (conditions : list pyval) i n c,
  NoDup names ->
  nth_error names i = Some n ->
  nth_error conditions i = Some c ->
  lookup (dict_of_zip d names conditions) n = Some c.
Proof.
  induction names as [|k names IH]; intros d conditions i n c Hnd Hn Hc.
  - destruct i; discriminate.
  - inversion Hnd as [|? ? Hk Hnd']; subst.
    destruct conditions as [|c0 conditions]; [destruct i; discriminate|].
    destruct i as [|i]; simpl in Hn, Hc |- *.
    + injection Hn as ->. injection Hc as ->.
      rewrite lookup_dict_of_zip_other by exact Hk.
      now rewrite lookup_store, String.eqb_refl.
    + now apply (IH _ _ i).
Qed.

Lemma lookup_dict_of_zip_beyond names : forall d (conditions : list pyval) i n,
  NoDup names ->
  nth_error names i = Some n ->
  (List.length conditions <= i)%nat ->
  lookup (dict_of_zip d names conditions) n = lookup d n.
Proof.
  induction names as [|k names IH]; intros d conditions i n Hnd Hn Hlen.
  - destruct i; discriminate.
  - inversion Hnd as [|? ? Hk Hnd']; subst.
    destruct conditions as [|c0 conditions]; [reflexivity|].
    destruct i as [|i]; simpl in Hn, Hlen |- *; [lia|].
    rewrite (IH _ _ i n Hnd' Hn) by lia.
    rewrite lookup_store.
    destruct (String.eqb_spec k n) as [->|_]; [|reflexivity].
    exfalso. apply Hk. eapply nth_error_In. exact Hn.
Qed.

(** X24: what [InputField.__init__] makes of a [group_by] given as a list of
    names.  With one condition every name of the list is mapped to it and no
    other name is.  With a list or a tuple of conditions the names, when
    they are all different, are paired with the conditions in order: the
    name at a position gets the condition at that position, and the names
    beyond the last condition get no entry, without an error.  A list with
    an element that is no string is refused with a [TypeError]. *)
Theorem group_by_names names :
  (forall condition,
     match condition with
     | PList _ | PTuple _ => False
     | _ => True
     end ->
     exists d,
       normalise_group_by (GroupSeq (List.map PStr names)) condition = Ok d /\
       forall n, lookup d n =
                 if existsb (String.eqb n) names then Some condition
                 else None) /\
  (forall conditions group_condition,
     group_condition = PList conditions \/
     group_condition = PTuple conditions ->
     exists d,
       normalise_group_by (GroupSeq (List.map PStr names)) group_condition =
         Ok d /\
       (NoDup names ->
        forall i n,
          nth_error names i = Some n ->
          lookup d n = nth_error conditions i) /\
       (forall n, ~ In n names -> lookup d n = None)) /\
  (forall before v after condition,
     is_str v = false ->
     normalise_group_by
       (GroupSeq (List.map PStr before ++ v :: after)) condition =
     Raise (TypeError InvalidGroupBy)).
Proof.
  split; [|split].
  - intros condition Hc.
    exists (dict_of_zip [] names (List.map (fun _ => condition) names)).
    split.
    + unfold normalise_group_by. rewrite all_str_strings.
      destruct condition; try reflexivity; contradiction.
    + intros n. apply lookup_dict_of_zip_constant.
  - intros conditions group_condition Hg.
    exists (dict_of_zip [] names conditions). split; [|split].
    + unfold normalise_group_by. rewrite all_str_strings.
      now destruct Hg as [-> | ->].
    + intros Hnd i n Hn.
      destruct (nth_error conditions i) as [c|] eqn:Hc.
      * now apply (lookup_dict_of_zip_nth names [] conditions i).
      * apply nth_error_None in Hc.
        now rewrite (lookup_dict_of_zip_beyond names [] conditions i n).
    + intros n Hn. now rewrite lookup_dict_of_zip_other.
  - intros before v after condition Hv. unfold normalise_group_by.
    replace (all_str (List.map PStr before ++ v :: after)) with (@None (list string));
      [reflexivity|].
    symmetry. induction before as [|b before IH]; simpl.
    + destruct v; try reflexivity. discriminate.
    + now rewrite IH.
Qed.

(** ** [Metadata] *)

(** X25: [Metadata.evaluate], case by case.  A new value for a metadata
    with an [fget] raises and leaves the object as it was.  A new value
    without [fget] is stored as it is, without the conversion the [value]
    setter applies, and returned.  Without a new value the [fget] is
    evaluated and its result stored the same way; if it raises, the object is
    as it was.  Whenever a value is stored or kept the object is marked
    evaluated, also when [evaluate] then raises because that value is
    [None]. *)
Theorem evaluate_cases self parent new_value :
  (is_None new_value = false -> is_None (fget self) = false ->
   evaluate getattr callable call self parent new_value =
     (self, Raise (ValueError FgetAndNewValue))) /\
  (is_None new_value = false -> is_None (fget self) = true ->
   evaluate getattr callable call self parent new_value =
     ({| Metadata_field := with_value (Metadata_field self) new_value;
         fget := fget self; evaluated := true |}, Ok new_value)) /\
  (is_None new_value = true -> is_None (fget self) = true ->
   let r := evaluate getattr callable call self parent new_value in
   evaluated (fst r) = true /\
   _value (Metadata_field (fst r)) = _value (Metadata_field self) /\
   snd r = value (Metadata_field self)) /\
  (is_None new_value = true -> is_None (fget self) = false ->
   (forall v,
      eval_fget getattr callable call self parent = Ok v ->
      evaluate getattr callable call self parent new_value =
        ({| Metadata_field := with_value (Metadata_field self) v;
            fget := fget self; evaluated := true |},
         if is_None v then Raise (ValueError ValueNotSet) else Ok v)) /\
   (forall e,
      eval_fget getattr callable call self parent = Raise e ->
      evaluate getattr callable call self parent new_value =
        (self, Raise e))).
Proof.
  unfold evaluate. split; [|split; [|split]].
  - intros Hn Hf. now rewrite Hn, Hf.
  - intros Hn Hf. rewrite Hn, Hf. simpl. unfold value, is_set. simpl.
    now rewrite Hn.
  - intros Hn Hf. rewrite Hn, Hf. simpl. unfold value, is_set. simpl.
    repeat split.
  - intros Hn Hf. split.
    + intros v Hv. rewrite Hn, Hf. simpl. rewrite Hv.
      unfold value, is_set. simpl. now destruct (is_None v).
    + intros e He. rewrite Hn, Hf. simpl. now rewrite He.
Qed.

Lemma contains_dot_cons c a :
  contains "." (String c a) = false ->
  Ascii.eqb c (Ascii.ascii_of_nat 46) = false /\ contains "." a = false.
Proof.
  change (contains "." (String c a))
    with ((Ascii.eqb (Ascii.ascii_of_nat 46) c && true) || contains "." a).
  rewrite andb_true_r, Ascii.eqb_sym. apply orb_false_iff.
Qed.

Lemma split_dots_cons : forall s, exists first rest,
  split_dots s = first :: rest.
Proof.
  induction s as [|c s [f [r IH]]]; [now exists ""%string, []|].
  simpl. destruct (Ascii.eqb c (Ascii.ascii_of_nat 46)); [eauto|].
  rewrite IH. eauto.
Qed.

Lemma split_dots_name a b :
  contains "." a = false ->
  split_dots a = [a] /\ split_dots (a ++ "." ++ b) = a :: split_dots b.
Proof.
  induction a as [|c a IH]; intros H; [now split|].
  apply contains_dot_cons in H as [Hc H]. destruct (IH H) as [IH1 IH2].
  split.
  - change (split_dots (String c a))
      with (if Ascii.eqb c (Ascii.ascii_of_nat 46) then "" :: split_dots a
            else match split_dots a with
                 | first :: rest => String c first :: rest
                 | [] => [String c ""]
                 end).
    now rewrite Hc, IH1.
  - change (split_dots (String c a ++ "." ++ b))
      with (if Ascii.eqb c (Ascii.ascii_of_nat 46)
            then "" :: split_dots (a ++ "." ++ b)
            else match split_dots (a ++ "." ++ b) with
                 | first :: rest => String c first :: rest
                 | [] => [String c ""]
                 end).
    now rewrite Hc, IH2.
Qed.

(** X26: an [fget] given as a dotted string is an attribute path.  For the
    names [a] and [b] without a dot, ["a.b"] is resolved as
    [getattr(getattr(parent, "a"), "b")] and ["a"] as [getattr(parent, "a")];
    the result is called if it is callable and returned as it is if not, and
    a [getattr] that raises ends the evaluation with its exception.  An
    [fget] that is no string is not looked up on [parent] at all. *)
Theorem eval_fget_path self parent a b :
  contains "." a = false ->
  contains "." b = false ->
  let finish := fun f => if callable f then call f else Ok f in
  (fget self = PStr a ->
   eval_fget getattr callable call self parent =
     and_then (getattr parent a) finish) /\
  (fget self = PStr (a ++ "." ++ b) ->
   eval_fget getattr callable call self parent =
     and_then (getattr parent a) (fun o => and_then (getattr o b) finish)) /\
  (is_str (fget self) = false ->
   eval_fget getattr callable call self parent = finish (fget self)).
Proof.
  intros Ha Hb finish. unfold eval_fget. split; [|split].
  - intros ->. rewrite (proj1 (split_dots_name a "" Ha)). simpl.
    unfold and_then. now destruct (getattr parent a).
  - intros ->. rewrite (proj2 (split_dots_name a b Ha)).
    rewrite (proj1 (split_dots_name b "" Hb)). simpl.
    unfold and_then. destruct (getattr parent a) as [o|]; [|reflexivity].
    now destruct (getattr o b).
  - intros Hf. destruct (fget self); try reflexivity. discriminate.
Qed.


End InputFields.

(** * The input fields at work *)

(** X17 at work: the text "TRUE" and the number 0.0. *)
Lemma Boolean_convert_accepts_witness :
  Parameters.Boolean_convert (Parameters.PStr "TRUE") =
    Parameters.Ok (Parameters.PBool true) /\
  Parameters.Boolean_convert (Parameters.PFloat (Parameters.Finite 0%Q)) =
    Parameters.Ok (Parameters.PBool false) /\
  Parameters.Boolean_convert (Parameters.PInt 2) =
    Parameters.Raise (Parameters.ValueError Parameters.NotABoolean).
Proof.
  destruct Boolean_convert_accepts as [Htrue [_ [_ [_ [Hzero [Hno _]]]]]].
  split; [apply Htrue; reflexivity|].
  split; [apply Hzero; reflexivity | apply Hno; reflexivity].
Defined.

(** X18 at work: 7 in a field from 0 to 10. *)
Lemma Integer_convert_in_range_witness :
  Parameters.Integer_convert Parameters.plain_int Parameters.no_int
    Parameters.no_strip (Some "V") 0 10 (Parameters.PInt 7) =
    Parameters.Ok (Parameters.PInt 7) /\
  exists z, Parameters.PInt 7 = Parameters.PInt z /\ 0 <= z <= 10 /\
    Parameters.Integer_convert Parameters.plain_int Parameters.no_int
      Parameters.no_strip (Some "V") 0 10 (Parameters.PInt 7) =
      Parameters.Ok (Parameters.PInt 7).
Proof.
  split; [reflexivity|].
  apply (Integer_convert_in_range Parameters.plain_int Parameters.no_int
           Parameters.no_strip (Some "V") 0 10 (Parameters.PInt 7)).
  reflexivity.
Defined.

(** X20 at work: "7 V" and "7 mV" in a field in volts. *)
Lemma Integer_convert_string_witness :
  Parameters.contains " " "7" = false /\
  Parameters.Integer_convert Parameters.plain_int Parameters.no_int
    Parameters.no_strip (Some "V") 0 10 (Parameters.PStr "7 V") =
    Parameters.Ok (Parameters.PInt 7) /\
  Parameters.Integer_convert Parameters.plain_int Parameters.no_int
    Parameters.no_strip (Some "V") 0 10 (Parameters.PStr "7 mV") =
    Parameters.Raise (Parameters.ValueError Parameters.UnitsDoNotMatch).
Proof.
  split; [reflexivity|]. split.
  - apply (Integer_convert_string Parameters.plain_int Parameters.no_int
             Parameters.no_strip (Some "V") 0 10 "7 V" "7" "V");
      [reflexivity | now left].
  - apply (Integer_convert_string Parameters.plain_int Parameters.no_int
             Parameters.no_strip (Some "V") 0 10 "7 mV" "7" "mV");
      [reflexivity | now left].
Defined.

(** X21 at work: a field from 0 to 10 with default 5, then the assignments
    7, 20 (refused) and "3 V". *)
Lemma Integer_field_value_in_range_witness :
  exists self,
    Parameters.IntegerInputField__init__ Parameters.plain_int
      Parameters.no_int (fun _ => true) Parameters.no_strip
      "voltage" (Some "V") (Parameters.PInt 0) (Parameters.PInt 10)
      Parameters.PNone (Parameters.PInt 5) Parameters.PNone
      Parameters.GroupNone (Parameters.PBool true) = Parameters.Ok self /\
    Parameters.value
      (Parameters.assignments
         (Parameters.Integer_convert Parameters.plain_int Parameters.no_int
            Parameters.no_strip (Parameters.Integer_units self)
            (Parameters.minimum self) (Parameters.maximum self))
         (Parameters.Integer_field self)
         [Parameters.PInt 7; Parameters.PInt 20; Parameters.PStr "3 V"]) =
      Parameters.Ok (Parameters.PInt 3) /\
    (exists z, Parameters.PInt 3 = Parameters.PInt z /\
               Parameters.minimum self <= z <= Parameters.maximum self) /\
    Parameters.minimum self <= 5 <= Parameters.maximum self.
Proof.
  eexists. split; [reflexivity|]. split; [reflexivity|].
  destruct (Integer_field_value_in_range Parameters.plain_int
              Parameters.no_int (fun _ => true) Parameters.no_strip
              "voltage" (Some "V") (Parameters.PInt 0) (Parameters.PInt 10)
              Parameters.PNone (Parameters.PInt 5) Parameters.PNone
              Parameters.GroupNone (Parameters.PBool true) _ eq_refl)
    as [Hvalue Hdefault].
  split.
  - exact (Hvalue [Parameters.PInt 7; Parameters.PInt 20;
                   Parameters.PStr "3 V"] (Parameters.PInt 3) eq_refl).
  - exact (Hdefault 5 eq_refl).
Defined.

(** X22 at work: the choices 1, 2 and "three"; the text "2" gives the
    number 2. *)
Lemma List_convert_round_trip_witness :
  let cs := [Parameters.PInt 1; Parameters.PInt 2; Parameters.PStr "three"] in
  exists d,
    Parameters.choices_dict Parameters.plain_str (Some cs) = Parameters.Ok d /\
    Parameters.List_convert Parameters.plain_str Parameters.no_strip
      (Some "V") d (Parameters.PStr "2") = Parameters.Ok (Parameters.PInt 2).
Proof.
  cbv zeta. eexists. split; [reflexivity|].
  refine (proj1 (proj2 (List_convert_round_trip Parameters.plain_str
                          Parameters.no_strip
                          [Parameters.PInt 1; Parameters.PInt 2;
                           Parameters.PStr "three"] _ eq_refl))
            (Some "V") (Parameters.PInt 2) (Parameters.PStr "2") _ _ _).
  - right. now left.
  - reflexivity.
  - reflexivity.
Defined.

(** X23 at work: a list field without choices and without default. *)
Lemma List_without_choices_witness :
  exists self,
    Parameters.ListInputField__init__ Parameters.plain_str Parameters.no_strip
      "mode" None None Parameters.PNone Parameters.PNone Parameters.GroupNone
      (Parameters.PBool true) = Parameters.Ok self /\
    Parameters.choices self = Parameters.Raise Parameters.AttributeError /\
    Parameters.List_convert Parameters.plain_str Parameters.no_strip
      (Parameters.List_units self) (Parameters._choices self)
      (Parameters.PStr "a") =
      Parameters.Raise (Parameters.ValueError Parameters.ChoicesAreNone).
Proof.
  eexists. split; [reflexivity|].
  destruct (List_without_choices Parameters.plain_str Parameters.no_strip
              "mode" None Parameters.PNone Parameters.PNone
              Parameters.GroupNone (Parameters.PBool true) _ eq_refl)
    as [_ [_ [Hc [_ Ha]]]].
  split; [exact Ha | exact (Hc (Parameters.PStr "a"))].
Defined.

(** X24 at work: three names and a list of two conditions. *)
Lemma group_by_names_witness :
  exists d,
    Parameters.normalise_group_by
      (Parameters.GroupSeq
         [Parameters.PStr "a"; Parameters.PStr "b"; Parameters.PStr "c"])
      (Parameters.PList [Parameters.PInt 1; Parameters.PInt 2]) =
      Parameters.Ok d /\
    Parameters.lookup d "a" = Some (Parameters.PInt 1) /\
    Parameters.lookup d "b" = Some (Parameters.PInt 2) /\
    Parameters.lookup d "c" = None.
Proof.
  destruct (group_by_names ["a"; "b"; "c"]) as [_ [Hpairs _]].
  destruct (Hpairs [Parameters.PInt 1; Parameters.PInt 2] _
              (or_introl eq_refl)) as [d [Hd [Hnth _]]].
  assert (Hnd : NoDup ["a"; "b"; "c"]).
  { repeat constructor; simpl; intuition discriminate. }
  exists d. split; [exact Hd|].
  split; [exact (Hnth Hnd 0%nat "a" eq_refl)|].
  split; [exact (Hnth Hnd 1%nat "b" eq_refl)
         | exact (Hnth Hnd 2%nat "c" eq_refl)].
Defined.

(** X26 at work: the path "instrument.field" on objects numbered 0
    (the procedure), 1 (its instrument) and 2 (the reading). *)
Lemma eval_fget_path_witness :
  let getattr := fun (o : Parameters.pyval) (n : string) =>
    match o with
    | Parameters.PObj 0 =>
        if String.eqb n "instrument" then Parameters.Ok (Parameters.PObj 1)
        else Parameters.Raise Parameters.AttributeError
    | Parameters.PObj 1 =>
        if String.eqb n "field" then Parameters.Ok (Parameters.PObj 2)
        else Parameters.Raise Parameters.AttributeError
    | _ => Parameters.Raise Parameters.AttributeError
    end in
  let self :=
    {| Parameters.Metadata_field :=
         {| Parameters.name := "field"; Parameters._value := Parameters.PNone;
            Parameters.default := Parameters.PNone;
            Parameters.ui_class := Parameters.PNone;
            Parameters._help_fields := []; Parameters.group_by := [] |};
       Parameters.fget := Parameters.PStr "instrument.field";
       Parameters.evaluated := false |} in
  Parameters.contains "." "instrument" = false /\
  Parameters.contains "." "field" = false /\
  Parameters.eval_fget getattr (fun _ => false)
    (fun _ => Parameters.Raise (Parameters.TypeError Parameters.FromBuiltin))
    self (Parameters.PObj 0) = Parameters.Ok (Parameters.PObj 2).
Proof.
  cbv zeta. split; [reflexivity|]. split; [reflexivity|].
  match goal with
  | |- Parameters.eval_fget ?g ?c ?k ?s ?p = _ =>
      rewrite (proj1 (proj2 (eval_fget_path g c k s p "instrument" "field"
                               eq_refl eq_refl)) eq_refl)
  end.
  reflexivity.
Defined.
